(** * TSAR: the orchestration layer of the structured-covariance autoregression

    A shallow embedding of [tsar/TSAR.py].  Python exceptions are values of
    [exn] carried by the [result] monad; a pandas frame is a list of labelled
    columns over a shared time index; a Python [set] is a [gset]; the
    instance [__dict__] is a [gmap] from attribute names to values.

    The modules [AR], [linear_algebra], [baseline] and [utils] that
    [TSAR.py] imports are not part of the sources: their functions enter
    as Section variables, or, where a property is about such a function
    itself, as a definition marked "Modelled from the spec". *)

From Stdlib Require Import ZArith List Bool Lia Reals Lra.
From stdpp Require Import base option list gmap sets strings.

Local Open Scope string_scope.
Local Open Scope list_scope.
Local Open Scope nat_scope.

#[local] Set Warnings "-clear-no-such-hyp".

(** ** Exceptions and results *)

Inductive exn : Type :=
  | AssertionError
  | KeyError
  | AttributeError
  | IndexError
  | ZeroDivisionError
  | ShapeMismatch
  | NumericallySingular
  | SyntaxError
  | ValueError.

Inductive result (A : Type) : Type :=
  | Ok (a : A)
  | Raise (e : exn).

Arguments Ok {A} a.
Arguments Raise {A} e.

Global Instance result_ret : MRet result := fun _ a => Ok a.

Global Instance result_bind : MBind result := fun _ _ k r =>
  match r with
  | Ok a => k a
  | Raise e => Raise e
  end.

Global Instance result_fmap : FMap result := fun _ _ f r =>
  match r with
  | Ok a => Ok (f a)
  | Raise e => Raise e
  end.

(** [assert cond] *)
Definition py_assert (cond : bool) : result unit :=
  if cond then Ok tt else Raise AssertionError.

(** Run [f] over a list, left to right, stopping at the first exception. *)
Fixpoint rmap {A B : Type} (f : A -> result B) (l : list A) : result (list B) :=
  match l with
  | [] => Ok []
  | a :: l' => b ← f a; bs ← rmap f l'; Ok (b :: bs)
  end.

(** ** pandas frames

    A frame has a time index (time stamps counted in units of the model's
    frequency) and labelled columns, each holding one cell per index entry.
    Column labels may repeat, as pandas allows. *)

Record DataFrame (cell : Type) : Type := mkFrame {
  df_index : list Z;
  df_cols : list (string * list cell)
}.

Arguments mkFrame {cell} _ _.
Arguments df_index {cell} _.
Arguments df_cols {cell} _.

Definition df_labels {cell} (df : DataFrame cell) : list string :=
  map fst (df_cols df).

(** [df[labels]]: for each requested label, in order, every column carrying
    it; [KeyError] when a label names no column. *)
Definition df_select_one {cell} (df : DataFrame cell) (lbl : string)
  : result (list (string * list cell)) :=
  match filter (fun c => fst c = lbl) (df_cols df) with
  | [] => Raise KeyError
  | cs => Ok cs
  end.

Definition df_getitem {cell} (df : DataFrame cell) (labels : list string)
  : result (DataFrame cell) :=
  cs ← rmap (df_select_one df) labels;
  Ok (mkFrame (df_index df) (concat cs)).

Lemma rmap_Ok_Forall2 {A B} (f : A -> result B) l bs :
  rmap f l = Ok bs → Forall2 (fun a b => f a = Ok b) l bs.
Proof.
  revert bs. induction l as [|a l IH]; simpl; intros bs H.
  - injection H as <-. constructor.
  - destruct (f a) as [b|e] eqn:Hb; simpl in H; [|discriminate].
    destruct (rmap f l) as [bs'|e] eqn:Hbs; simpl in H; [|discriminate].
    injection H as <-. constructor; auto.
Qed.

Lemma df_select_one_labels {cell} (df : DataFrame cell) lbl cs :
  df_select_one df lbl = Ok cs →
  lbl ∈ df_labels df ∧ ∀ c, c ∈ map fst cs ↔ c = lbl.
Proof.
  unfold df_select_one, df_labels. intros H.
  destruct (filter _ _) as [|c0 cs0] eqn:Hf; [discriminate|].
  injection H as <-.
  assert (∀ c, c ∈ c0 :: cs0 → c ∈ df_cols df ∧ fst c = lbl) as Hall.
  { intros c Hc. rewrite <- Hf in Hc. by apply list_elem_of_filter in Hc as [? ?]. }
  split.
  - destruct (Hall c0) as [Hin <-]; [left|]. by apply list_elem_of_fmap_2.
  - intros c. split.
    + intros (x & -> & Hx)%list_elem_of_fmap. by apply Hall.
    + intros ->. destruct (Hall c0) as [_ <-]; [left|]. simpl. left.
Qed.

Lemma df_getitem_labels {cell} (df df' : DataFrame cell) labels :
  df_getitem df labels = Ok df' →
  (∀ c, c ∈ labels → c ∈ df_labels df) ∧
  (∀ c, c ∈ df_labels df' ↔ c ∈ labels).
Proof.
  unfold df_getitem. destruct (rmap _ _) as [cs|e] eqn:Hr; simpl; [|discriminate].
  intros H. injection H as <-. apply rmap_Ok_Forall2 in Hr.
  unfold df_labels at 2. simpl.
  induction Hr as [|lbl sel labels cs Hsel Hr [IH1 IH2]]; simpl.
  - split; intros c; [by intros ?%elem_of_nil|done].
  - apply df_select_one_labels in Hsel as [Hin Hsel]. split.
    + intros c [->|Hc]%elem_of_cons; auto.
    + intros c. rewrite map_app, elem_of_app, elem_of_cons, Hsel, IH2. done.
Qed.

(** ** Lists of blocks and Python sets *)

Definition blocks_containing (c : string) (blocks : list (list string))
  : list (list string) := filter (fun b => c ∈ b) blocks.

Definition pairwise_disjoint (blocks : list (list string)) : Prop :=
  ∀ i j bi bj c, i ≠ j → blocks !! i = Some bi → blocks !! j = Some bj →
    c ∈ bi → c ∉ bj.

Lemma concat_singletons {A} (l : list A) : concat (map (fun el => [el]) l) = l.
Proof. induction l; simpl; congruence. Qed.

Lemma elem_of_concat {A} (x : A) (ls : list (list A)) :
  x ∈ concat ls ↔ ∃ l, l ∈ ls ∧ x ∈ l.
Proof.
  induction ls as [|l ls IH]; simpl.
  - split; [by intros ?%elem_of_nil|by intros (? & ?%elem_of_nil & _)].
  - rewrite elem_of_app, IH. split.
    + intros [H|(l' & H1 & H2)]; [exists l|exists l'];
        rewrite elem_of_cons; auto.
    + intros (l' & [->|H1]%elem_of_cons & H2); eauto.
Qed.

Lemma NoDup_concat_disjoint bs : NoDup (concat bs) → pairwise_disjoint bs.
Proof.
  induction bs as [|b bs IH]; intros Hnd i j bi bj c Hij Hi Hj Hci Hcj;
    [by rewrite lookup_nil in Hi|].
  simpl in Hnd. apply NoDup_app in Hnd as (Hb & Hdis & Hrest).
  destruct i as [|i], j as [|j]; simpl in *; simplify_eq.
  - apply (Hdis c Hci). apply elem_of_concat. exists bj.
    split; [by eapply list_elem_of_lookup_2|done].
  - apply (Hdis c Hcj). apply elem_of_concat. exists bi.
    split; [by eapply list_elem_of_lookup_2|done].
  - eapply (IH Hrest i j); eauto.
Qed.

Lemma blocks_containing_none c bs : c ∉ concat bs → blocks_containing c bs = [].
Proof.
  induction bs as [|b bs IH]; intros Hc; [done|]. simpl in Hc.
  rewrite elem_of_app in Hc. unfold blocks_containing in *.
  rewrite filter_cons. destruct (decide (c ∈ b)); [tauto|]. apply IH. tauto.
Qed.

Lemma NoDup_concat_count c bs :
  NoDup (concat bs) → c ∈ concat bs → length (blocks_containing c bs) = 1.
Proof.
  induction bs as [|b bs IH]; intros Hnd Hc; simpl in *.
  - by apply elem_of_nil in Hc.
  - apply NoDup_app in Hnd as (Hb & Hdis & Hrest).
    unfold blocks_containing in *. rewrite filter_cons.
    destruct (decide (c ∈ b)) as [Hin|Hin]; simpl.
    + fold (blocks_containing c bs). rewrite blocks_containing_none; auto.
    + apply elem_of_app in Hc as [?|Hc]; [done|]. auto.
Qed.

Lemma size_list_to_set_le (l : list string) :
  size (list_to_set l : gset string) ≤ length l.
Proof.
  induction l as [|x l IH].
  - rewrite list_to_set_nil, size_empty. simpl. lia.
  - rewrite list_to_set_cons, size_union_alt, size_singleton.
    assert (size (list_to_set l ∖ {[x]} : gset string) ≤ size (list_to_set l : gset string)) as H by (apply subseteq_size; set_solver).
    simpl. lia.
Qed.

Lemma length_eq_size_NoDup (l : list string) :
  length l = size (list_to_set l : gset string) ↔ NoDup l.
Proof.
  split; [|intros; symmetry; by apply size_list_to_set].
  induction l as [|x l IH]; intros H; [constructor|].
  pose proof (size_list_to_set_le l) as Hle.
  rewrite list_to_set_cons in H. simpl in H.
  destruct (decide (x ∈ l)) as [Hin|Hin].
  - assert (({[x]} ∪ list_to_set l : gset string) = list_to_set l) as E by set_solver.
    rewrite E in H. lia.
  - rewrite size_union in H by set_solver. rewrite size_singleton in H.
    constructor; [done|]. apply IH. lia.
Qed.

(** ** More on frames and on [rmap]: missing labels, unique labels *)

Lemma rmap_Raise {A B} (f : A -> result B) l e :
  (∀ a e', a ∈ l → f a = Raise e' → e' = e) →
  (∃ a, a ∈ l ∧ f a = Raise e) → rmap f l = Raise e.
Proof.
  induction l as [|a l IH]; intros Honly (a0 & Hin & Ha0).
  - by apply elem_of_nil in Hin.
  - simpl. destruct (f a) as [b|e'] eqn:Hfa; simpl.
    + apply elem_of_cons in Hin as [->|Hin]; [congruence|].
      rewrite IH; [done| |by exists a0].
      intros a1 e1 H1. apply Honly. by right.
    + f_equal. apply (Honly a); [left|done].
Qed.

Lemma rmap_total {A B} (f : A -> result B) l :
  (∀ a, a ∈ l → ∃ b, f a = Ok b) → ∃ bs, rmap f l = Ok bs.
Proof.
  induction l as [|a l IH]; intros H; [by exists []|].
  destruct (H a) as [b Hb]; [left|].
  destruct IH as [bs Hbs]; [intros a' Ha'; apply H; by right|].
  exists (b :: bs). simpl. by rewrite Hb, Hbs.
Qed.

Lemma df_select_one_missing {cell} (df : DataFrame cell) lbl :
  lbl ∉ df_labels df → df_select_one df lbl = Raise KeyError.
Proof.
  intros Hnin. unfold df_select_one.
  destruct (filter _ _) as [|c cs] eqn:Hf; [done|].
  exfalso. apply Hnin.
  assert (c ∈ filter (fun c => fst c = lbl) (df_cols df)) as Hc
    by (rewrite Hf; left).
  apply list_elem_of_filter in Hc as [<- Hc].
  by apply list_elem_of_fmap_2.
Qed.

Lemma df_select_one_Raise {cell} (df : DataFrame cell) lbl e :
  df_select_one df lbl = Raise e → e = KeyError.
Proof. unfold df_select_one. destruct (filter _ _); congruence. Qed.

Lemma df_getitem_KeyError {cell} (df : DataFrame cell) labels :
  (∃ c, c ∈ labels ∧ c ∉ df_labels df) →
  df_getitem df labels = Raise KeyError.
Proof.
  intros (c & Hc & Hnin). unfold df_getitem.
  rewrite (rmap_Raise _ _ KeyError); [done| |].
  - intros a e' _ H. by apply df_select_one_Raise in H.
  - exists c. split; [done|]. by apply df_select_one_missing.
Qed.

Lemma filter_none {A} (P : A -> Prop) `{∀ x, Decision (P x)} (l : list A) :
  (∀ x, x ∈ l → ¬ P x) → filter P l = [].
Proof.
  induction l as [|x l IH]; intros Hl; [done|].
  rewrite filter_cons_False by (apply Hl; left).
  apply IH. intros y Hy. apply Hl. by right.
Qed.

Lemma df_select_one_NoDup {cell} (df : DataFrame cell) c cells :
  NoDup (df_labels df) → (c, cells) ∈ df_cols df →
  df_select_one df c = Ok [(c, cells)].
Proof.
  unfold df_select_one, df_labels. intros Hnd Hin.
  assert (filter (fun c0 => fst c0 = c) (df_cols df) = [(c, cells)]) as ->;
    [|done].
  induction (df_cols df) as [|[c0 cells0] cols IH]; simpl in *.
  - by apply elem_of_nil in Hin.
  - apply NoDup_cons in Hnd as [Hc0 Hnd].
    apply elem_of_cons in Hin as [[= <- <-]|Hin].
    + rewrite filter_cons_True by done. f_equal.
      apply filter_none. intros [c1 cells1] Hc1 Heq. simpl in Heq. subst c1.
      apply Hc0. by apply (list_elem_of_fmap_2 fst _ (c, cells1)).
    + rewrite filter_cons_False; [by apply IH|].
      simpl. intros ->. apply Hc0.
      by apply (list_elem_of_fmap_2 fst _ (c, cells)).
Qed.

Lemma df_getitem_NoDup {cell} (df df' : DataFrame cell) labels :
  NoDup (df_labels df) → df_getitem df labels = Ok df' →
  df_index df' = df_index df ∧ df_labels df' = labels
  ∧ ∀ col, col ∈ df_cols df' ↔ col ∈ df_cols df ∧ fst col ∈ labels.
Proof.
  intros Hnd. unfold df_getitem.
  destruct (rmap _ _) as [cs|e] eqn:Hr; simpl; [|discriminate].
  intros [= <-]. simpl. split; [done|].
  apply rmap_Ok_Forall2 in Hr.
  change (df_labels (mkFrame (df_index df) (concat cs)))
    with (map fst (concat cs)). simpl.
  induction Hr as [|lbl sel labels cs Hsel Hr [IH1 IH2]]; simpl.
  - split; [done|]. intros col. split; [by intros ?%elem_of_nil|].
    by intros [_ ?%elem_of_nil].
  - pose proof (df_select_one_labels _ _ _ Hsel) as [Hlbl _].
    apply list_elem_of_fmap in Hlbl as ([c cells] & -> & Hc). simpl in *.
    rewrite (df_select_one_NoDup _ _ _ Hnd Hc) in Hsel.
    injection Hsel as <-. simpl. split; [by rewrite IH1|].
    intros col. rewrite !elem_of_cons, IH2. split.
    + intros [->|[? ?]]; [split; [done|by left]|split; [done|by right]].
    + intros [Hcol [Heq|?]]; [left|by right; split].
      destruct col as [c' cells']. simpl in Heq. subst c'.
      pose proof (df_select_one_NoDup _ _ _ Hnd Hc) as H1.
      pose proof (df_select_one_NoDup _ _ _ Hnd Hcol) as H2.
      congruence.
Qed.

(** ** Construction: [TSAR.__init__] (lines 46-129) *)

Module Init.

(** The attributes the constructor computes and the claims read.  [rest]
    stands for the remaining attributes: the options stored unchanged
    (lags, rank, split, regularization, ...), the baseline parameters, and
    everything the two fitting passes assign ([_min], [_max],
    [baseline_results_columns], [s_times_v], [V], ...); neither pass
    assigns one of the named fields below. *)
Record TSAR (cell rest : Type) : Type := mkTSAR {
  data : DataFrame cell;
  available_data_lags_columns : gmap string Z;
  ignore_prediction_columns : list string;
  full_covariance_blocks : list (list string);
  not_in_blocks : gset string;
  columns : list string;
  fitted : rest
}.

Arguments mkTSAR {cell rest} _ _ _ _ _ _ _.
Arguments data {cell rest} _.
Arguments available_data_lags_columns {cell rest} _.
Arguments ignore_prediction_columns {cell rest} _.
Arguments full_covariance_blocks {cell rest} _.
Arguments not_in_blocks {cell rest} _.
Arguments columns {cell rest} _.
Arguments fitted {cell rest} _.

(** [len(sum(blocks, [])) == len(set(sum(blocks, [])))] (lines 91-92) *)
Definition blocks_distinct (blocks : list (list string)) : bool :=
  bool_decide (length (concat blocks)
               = size (list_to_set (concat blocks) : gset string)).

(** The loop of lines 106-126, as far as it touches
    [available_data_lags_columns]: a column without an entry gets lag 0. *)
Definition default_lags (cols : list string) (lags : gmap string Z)
  : gmap string Z :=
  foldl (fun m col => match m !! col with
                      | Some _ => m
                      | None => <[col := 0%Z]> m
                      end) lags cols.

Section Constructor.

Context {cell rest : Type}.

(** [utils.check_multidimensional_time_series] *)
Variable check_multidimensional_time_series : DataFrame cell -> result unit.

(** The options the constructor only stores, and the baseline defaults
    of lines 106-123, as they stand before the first fitting pass. *)
Variable initial_rest : rest.

(** [fit_train_test] and [fit] (lines 177-188): each reads the object
    and assigns fitted attributes, or raises. *)
Variable fit_train_test : TSAR cell rest -> result rest.
Variable fit : TSAR cell rest -> result rest.

Definition set_fitted (self : TSAR cell rest) (r : rest) : TSAR cell rest :=
  mkTSAR (data self) (available_data_lags_columns self)
         (ignore_prediction_columns self) (full_covariance_blocks self)
         (not_in_blocks self) (columns self) r.

Definition init (data0 : DataFrame cell)
    (available_data_lags_columns0 : option (gmap string Z))
    (ignore_prediction_columns0 : list string)
    (full_covariance_blocks0 : list (list string))
  : result (TSAR cell rest) :=
  check_multidimensional_time_series data0;;
  let lags0 := default ∅ available_data_lags_columns0 in
  py_assert (blocks_distinct full_covariance_blocks0);;
  let not_in : gset string :=
    list_to_set (df_labels data0)
      ∖ list_to_set (concat full_covariance_blocks0) in
  let blocks := full_covariance_blocks0
                  ++ map (fun el => [el]) (elements not_in) in
  let cols := concat blocks in
  data1 ← df_getitem data0 cols;
  let self := mkTSAR data1 (default_lags cols lags0)
                ignore_prediction_columns0 blocks not_in cols
                initial_rest in
  r1 ← fit_train_test self;
  let self := set_fitted self r1 in
  r2 ← fit self;
  Ok (set_fitted self r2).

(** What a successful construction went through. *)
Lemma init_Ok_inv data0 lags0 ign0 blocks0 self :
  init data0 lags0 ign0 blocks0 = Ok self →
  let not_in : gset string :=
    list_to_set (df_labels data0) ∖ list_to_set (concat blocks0) in
  NoDup (concat blocks0)
  ∧ not_in_blocks self = not_in
  ∧ full_covariance_blocks self
      = blocks0 ++ map (fun el => [el]) (elements not_in)
  ∧ columns self = concat (full_covariance_blocks self)
  ∧ df_getitem data0 (columns self) = Ok (data self).
Proof.
  unfold init. intros H.
  destruct (check_multidimensional_time_series data0) as [[]|e];
    simpl in H; [|discriminate].
  destruct (blocks_distinct blocks0) eqn:Hd; simpl in H; [|discriminate].
  destruct (df_getitem data0 _) as [data1|e] eqn:Hg; simpl in H;
    [|discriminate].
  destruct (fit_train_test _) as [r1|e]; simpl in H; [|discriminate].
  destruct (fit _) as [r2|e]; simpl in H; [|discriminate].
  injection H as <-. simpl.
  repeat split; try done.
  apply length_eq_size_NoDup. unfold blocks_distinct in Hd.
  by apply bool_decide_eq_true in Hd.
Qed.

(** C6.  After a successful construction the covariance blocks partition
    the variable set: no variable occurs twice in the blocks (so they
    are pairwise disjoint), the variables of the blocks are exactly the
    columns of the data, every column lies in exactly one block, and
    every column that no supplied block lists got a singleton block
    appended to the supplied ones. *)
Theorem init_blocks_partition data0 lags0 ign0 blocks0 self :
  init data0 lags0 ign0 blocks0 = Ok self →
  NoDup (concat (full_covariance_blocks self))
  ∧ pairwise_disjoint (full_covariance_blocks self)
  ∧ (∀ c, c ∈ concat (full_covariance_blocks self)
          ↔ c ∈ df_labels (data self))
  ∧ (∀ c, c ∈ df_labels data0 ↔ c ∈ df_labels (data self))
  ∧ (∀ c, c ∈ df_labels (data self) →
          length (blocks_containing c (full_covariance_blocks self)) = 1)
  ∧ (∃ singles, full_covariance_blocks self = blocks0 ++ singles
       ∧ ∀ c, c ∈ df_labels data0 → c ∉ concat blocks0 → [c] ∈ singles).
Proof.
  intros H. apply init_Ok_inv in H as (Hnd0 & Hnot & Hblocks & Hcols & Hget).
  cbv zeta in *.
  set (not_in := (list_to_set (df_labels data0)
                    ∖ list_to_set (concat blocks0) : gset string)) in *.
  apply df_getitem_labels in Hget as [Hsub Hlab].
  assert (concat (full_covariance_blocks self)
          = concat blocks0 ++ elements not_in) as Hcat.
  { by rewrite Hblocks, concat_app, concat_singletons. }
  assert (NoDup (concat (full_covariance_blocks self))) as Hnd.
  { rewrite Hcat. apply NoDup_app. split; [done|]. split.
    - intros c Hc Hc'. apply elem_of_elements in Hc'.
      subst not_in. set_solver.
    - apply NoDup_elements. }
  assert (∀ c, c ∈ concat (full_covariance_blocks self)
               ↔ c ∈ df_labels (data self)) as Hunion.
  { intros c. by rewrite Hlab, Hcols. }
  assert (∀ c, c ∈ df_labels data0
               → c ∈ concat (full_covariance_blocks self)) as Hcover.
  { intros c Hc. rewrite Hcat, elem_of_app, elem_of_elements.
    destruct (decide (c ∈ concat blocks0)); [by left|right].
    subst not_in. set_solver. }
  split; [done|]. split; [by apply NoDup_concat_disjoint|].
  split; [done|]. split.
  { intros c. split; intros Hc.
    - by apply Hunion, Hcover.
    - apply Hsub. rewrite Hcols. by apply Hunion. }
  split.
  { intros c Hc. apply NoDup_concat_count; [done|]. by apply Hunion. }
  exists (map (fun el => [el]) (elements not_in)). split; [done|].
  intros c Hc Hnc. apply list_elem_of_fmap. exists c. split; [done|].
  apply elem_of_elements. subst not_in. set_solver.
Qed.

(** Some variable is listed in two different supplied blocks. *)
Definition overlapping (blocks : list (list string)) : Prop :=
  ∃ i j bi bj c, i ≠ j ∧ blocks !! i = Some bi ∧ blocks !! j = Some bj
                 ∧ c ∈ bi ∧ c ∈ bj.

(** C7.  Overlapping supplied blocks make the constructor raise: the
    exception is the one of the input check if that fails, and the
    [AssertionError] of lines 91-92 otherwise.  The outcome does not
    depend on the fitting passes: they are not reached. *)
Theorem init_rejects_overlapping_blocks data0 lags0 ign0 blocks0 :
  overlapping blocks0 →
  init data0 lags0 ign0 blocks0
  = (check_multidimensional_time_series data0;; Raise AssertionError).
Proof.
  intros (i & j & bi & bj & c & Hij & Hi & Hj & Hci & Hcj).
  unfold init.
  destruct (check_multidimensional_time_series data0) as [[]|e];
    simpl; [|done].
  assert (blocks_distinct blocks0 = false) as ->; [|done].
  unfold blocks_distinct. apply bool_decide_eq_false.
  rewrite length_eq_size_NoDup. intros Hnd.
  by apply (NoDup_concat_disjoint _ Hnd i j bi bj c).
Qed.

(** *** Further behaviour of the constructor *)

Lemma default_lags_lookup cols lags c :
  default_lags cols lags !! c
  = match lags !! c with
    | Some a => Some a
    | None => if decide (c ∈ cols) then Some 0%Z else None
    end.
Proof.
  unfold default_lags. revert lags.
  induction cols as [|col cols IH]; intros lags.
  - simpl. destruct (lags !! c); [done|].
    by destruct (decide (c ∈ [])) as [?%elem_of_nil|].
  - cbn [foldl]. rewrite IH. destruct (lags !! col) as [a0|] eqn:Hcol.
    + destruct (lags !! c) as [a|] eqn:Hc; [done|].
      destruct (decide (c ∈ cols)) as [Hin|Hnin];
        destruct (decide (c ∈ col :: cols)) as [Hin'|Hnin']; try done.
      * exfalso. apply Hnin'. by right.
      * apply elem_of_cons in Hin' as [->|?]; [congruence|done].
    + destruct (decide (col = c)) as [->|Hne].
      * rewrite lookup_insert_eq, Hcol.
        destruct (decide (c ∈ c :: cols)) as [|Hnin]; [done|].
        exfalso. apply Hnin. left.
      * rewrite lookup_insert_ne by done.
        destruct (lags !! c) as [a|]; [done|].
        destruct (decide (c ∈ cols)) as [Hin|Hnin];
          destruct (decide (c ∈ col :: cols)) as [Hin'|Hnin']; try done.
        -- exfalso. apply Hnin'. by right.
        -- apply elem_of_cons in Hin' as [->|?]; done.
Qed.

Lemma init_Ok_lags data0 lags0 ign0 blocks0 self :
  init data0 lags0 ign0 blocks0 = Ok self →
  available_data_lags_columns self
  = default_lags (columns self) (default ∅ lags0)
  ∧ ignore_prediction_columns self = ign0.
Proof.
  unfold init. intros H.
  destruct (check_multidimensional_time_series data0) as [[]|e];
    simpl in H; [|discriminate].
  destruct (blocks_distinct blocks0) eqn:Hd; simpl in H; [|discriminate].
  destruct (df_getitem data0 _) as [data1|e] eqn:Hg; simpl in H;
    [|discriminate].
  destruct (fit_train_test _) as [r1|e]; simpl in H; [|discriminate].
  destruct (fit _) as [r2|e]; simpl in H; [|discriminate].
  by injection H as <-.
Qed.

(** X1.  A supplied block that names a variable which is no column of
    the data makes the constructor raise [KeyError] at line 102, whatever
    the fitting passes would do. *)
Theorem init_unknown_block_variable data0 lags0 ign0 blocks0 c :
  check_multidimensional_time_series data0 = Ok tt →
  NoDup (concat blocks0) →
  c ∈ concat blocks0 → c ∉ df_labels data0 →
  init data0 lags0 ign0 blocks0 = Raise KeyError.
Proof.
  intros Hcheck Hnd Hc Hnin. unfold init. rewrite Hcheck. simpl.
  assert (blocks_distinct blocks0 = true) as ->.
  { unfold blocks_distinct. apply bool_decide_eq_true.
    by apply length_eq_size_NoDup. }
  simpl. rewrite df_getitem_KeyError; [done|].
  exists c. split; [|done].
  rewrite concat_app, elem_of_app. by left.
Qed.

(** X2.  A variable listed twice among the supplied blocks, be it within
    one block, is rejected by the assertion of lines 91-92 before any
    fitting. *)
Theorem init_rejects_repeated_variable data0 lags0 ign0 blocks0 :
  ¬ NoDup (concat blocks0) →
  init data0 lags0 ign0 blocks0
  = (check_multidimensional_time_series data0;; Raise AssertionError).
Proof.
  intros Hdup. unfold init.
  destruct (check_multidimensional_time_series data0) as [[]|e];
    simpl; [|done].
  assert (blocks_distinct blocks0 = false) as ->; [|done].
  unfold blocks_distinct. apply bool_decide_eq_false.
  by rewrite length_eq_size_NoDup.
Qed.



(** X5.  After construction every column has an available-data lag: the
    lag that was supplied for it, and 0 when none was supplied. *)
Theorem init_default_lags data0 lags0 ign0 blocks0 self c :
  init data0 lags0 ign0 blocks0 = Ok self →
  c ∈ columns self →
  available_data_lags_columns self !! c
  = Some (default 0%Z (default ∅ lags0 !! c)).
Proof.
  intros H%init_Ok_lags Hc. destruct H as [-> _].
  rewrite default_lags_lookup.
  destruct (default ∅ lags0 !! c); [done|]. by rewrite decide_True.
Qed.

End Constructor.

(** A frame with columns a, b, c over three time steps, the supplied block
    [[a; b]], a check that accepts and fitting passes that assign nothing. *)
Definition demo_data : DataFrame Z :=
  mkFrame [0; 1; 2]%Z
    [("a", [1; 2; 3]%Z); ("b", [4; 5; 6]%Z); ("c", [7; 8; 9]%Z)].

Definition demo_init (blocks : list (list string)) : result (TSAR Z unit) :=
  init (fun _ => Ok tt) tt (fun _ => Ok tt) (fun _ => Ok tt)
       demo_data None [] blocks.

Definition demo_self : TSAR Z unit :=
  mkTSAR demo_data {["a" := 0%Z; "b" := 0%Z; "c" := 0%Z]} []
         [["a"; "b"]; ["c"]] {["c"]} ["a"; "b"; "c"] tt.

Example demo_init_partition : demo_init [["a"; "b"]] = Ok demo_self.
Proof. vm_compute. reflexivity. Qed.

Example demo_init_reorders :
  columns <$> demo_init [["c"; "a"]] = Ok ["c"; "a"; "b"].
Proof. vm_compute. reflexivity. Qed.

Example demo_init_overlap :
  demo_init [["a"; "b"]; ["b"; "c"]] = Raise AssertionError.
Proof. vm_compute. reflexivity. Qed.

Example demo_init_unknown_column :
  demo_init [["a"; "z"]] = Raise KeyError.
Proof. vm_compute. reflexivity. Qed.

Lemma init_blocks_partition_witness :
  demo_init [["a"; "b"]] = Ok demo_self
  ∧ NoDup (concat (full_covariance_blocks demo_self))
  ∧ pairwise_disjoint (full_covariance_blocks demo_self)
  ∧ (∀ c, c ∈ concat (full_covariance_blocks demo_self)
          ↔ c ∈ df_labels (data demo_self))
  ∧ (∀ c, c ∈ df_labels demo_data ↔ c ∈ df_labels (data demo_self))
  ∧ (∀ c, c ∈ df_labels (data demo_self) →
          length (blocks_containing c (full_covariance_blocks demo_self)) = 1)
  ∧ (∃ singles, full_covariance_blocks demo_self = [["a"; "b"]] ++ singles
       ∧ ∀ c, c ∈ df_labels demo_data → c ∉ concat [["a"; "b"]]
              → [c] ∈ singles).
Proof.
  assert (demo_init [["a"; "b"]] = Ok demo_self) as H
    by (vm_compute; reflexivity).
  split; [exact H|].
  exact (init_blocks_partition (fun _ => Ok tt) tt (fun _ => Ok tt)
           (fun _ => Ok tt) demo_data None [] [["a"; "b"]] demo_self H).
Defined.

Lemma init_rejects_overlapping_blocks_witness :
  overlapping [["a"; "b"]; ["b"; "c"]]
  ∧ demo_init [["a"; "b"]; ["b"; "c"]] = Raise AssertionError.
Proof.
  assert (overlapping [["a"; "b"]; ["b"; "c"]]) as H.
  { exists 0, 1, ["a"; "b"], ["b"; "c"], "b".
    repeat split; [lia| |]; set_solver. }
  split; [exact H|].
  exact (init_rejects_overlapping_blocks (fun _ => Ok tt) tt
           (fun _ => Ok tt) (fun _ => Ok tt) demo_data None []
           [["a"; "b"]; ["b"; "c"]] H).
Defined.

(** *** Instances of the further properties *)

Ltac by_evaluation :=
  match goal with
  | |- ?P => apply (@bool_decide_unpack P _); vm_compute; exact I
  end.

Lemma init_unknown_block_variable_witness :
  NoDup (concat [["a"; "z"]])
  ∧ ("z" ∈ concat [["a"; "z"]]) ∧ ("z" ∉ df_labels demo_data)
  ∧ demo_init [["a"; "z"]] = Raise KeyError.
Proof.
  assert (NoDup (concat [["a"; "z"]])) as H1 by by_evaluation.
  assert ("z" ∈ concat [["a"; "z"]]) as H2 by by_evaluation.
  assert ("z" ∉ df_labels demo_data) as H3 by by_evaluation.
  split; [exact H1|]. split; [exact H2|]. split; [exact H3|].
  exact (init_unknown_block_variable (fun _ => Ok tt) tt (fun _ => Ok tt)
           (fun _ => Ok tt) demo_data None [] [["a"; "z"]] "z"
           eq_refl H1 H2 H3).
Defined.

Lemma init_rejects_repeated_variable_witness :
  ¬ NoDup (concat [["a"; "a"]])
  ∧ demo_init [["a"; "a"]] = Raise AssertionError.
Proof.
  assert (¬ NoDup (concat [["a"; "a"]])) as H by by_evaluation.
  split; [exact H|].
  exact (init_rejects_repeated_variable (fun _ => Ok tt) tt
           (fun _ => Ok tt) (fun _ => Ok tt) demo_data None []
           [["a"; "a"]] H).
Defined.



Lemma init_default_lags_witness :
  demo_init [["a"; "b"]] = Ok demo_self
  ∧ ("c" ∈ columns demo_self)
  ∧ available_data_lags_columns demo_self !! "c"
    = Some (default 0%Z ((default ∅ None : gmap string Z) !! "c")).
Proof.
  assert (demo_init [["a"; "b"]] = Ok demo_self) as H
    by (vm_compute; reflexivity).
  assert ("c" ∈ columns demo_self) as Hc by by_evaluation.
  split; [exact H|]. split; [exact Hc|].
  exact (init_default_lags (fun _ => Ok tt) tt (fun _ => Ok tt)
           (fun _ => Ok tt) demo_data None [] [["a"; "b"]] demo_self "c"
           H Hc).
Defined.

End Init.

(** ** Variable weights: the property [TSAR.variables_weight] (lines 132-155)

    Floating-point numbers are idealised as real numbers; NaN is [None].
    pandas sums skip NaN. *)

Module Weights.

Local Open Scope R_scope.

(** A pandas Series indexed by column labels. *)
Definition Series : Type := list (string * option R).

(** [pd.Series(v, index=labels)] *)
Definition series_const (v : R) (labels : list string) : Series :=
  map (fun c => (c, Some v)) labels.

(** [np.sqrt]: NaN on a negative argument. *)
Definition np_sqrt (x : R) : option R :=
  if Rlt_dec x 0 then None else Some (sqrt x).

(** [np.isclose(a, b)] with the default [rtol=1e-05], [atol=1e-08]. *)
Definition np_isclose (a b : R) : bool :=
  if Rle_dec (Rabs (a - b)) (/ 100000000 + / 100000 * Rabs b)
  then true else false.

(** [w[keys] = v] for a set of labels that all occur in the index. *)
Definition series_assign (w : Series) (keys : gset string) (v : option R)
  : Series :=
  map (fun row => if decide (fst row ∈ keys) then (fst row, v) else row) w.

(** [w[keys]] for a list of labels: the rows of each label in turn;
    [KeyError] when a label is not in the index. *)
Definition series_select_one (w : Series) (key : string) : result Series :=
  match filter (fun row => fst row = key) w with
  | [] => Raise KeyError
  | rows => Ok rows
  end.

Definition series_getitem (w : Series) (keys : list string) : result Series :=
  rows ← rmap (series_select_one w) keys; Ok (concat rows).

(** [(w**2).sum()] *)
Definition sum_squares (w : Series) : R :=
  fold_right (fun row acc => match snd row with
                             | Some x => x ^ 2 + acc
                             | None => acc
                             end) 0 w.

(** [TSAR.prediction_columns] (lines 157-159) *)
Definition prediction_columns (columns ignore_prediction_columns : list string)
  : gset string :=
  list_to_set columns ∖ list_to_set ignore_prediction_columns.

Definition variables_weight (columns ignore_prediction_columns : list string)
    (prediction_variables_weight : option R) : result Series :=
  let weights := series_const 1 columns in
  match prediction_variables_weight with
  | None => Ok weights
  | Some pvw =>
    if bool_decide (length ignore_prediction_columns = 0%nat)
    then Ok weights
    else
      let tot_weight := INR (length columns) in
      let prediction_weight := pvw * tot_weight in
      let predictive_weight := tot_weight - prediction_weight in
      let pcols := prediction_columns columns ignore_prediction_columns in
      (* line 145: the right-hand side divides by [len(prediction_columns)] *)
      (if bool_decide (size pcols = 0%nat)
       then Raise ZeroDivisionError else Ok tt);;
      let weights :=
        series_assign weights pcols
          (np_sqrt (prediction_weight / INR (size pcols))) in
      (* line 148: every ignored label must be a column *)
      (if bool_decide (ignore_prediction_columns ⊆ columns)
       then Ok tt else Raise KeyError);;
      let weights :=
        series_assign weights (list_to_set ignore_prediction_columns)
          (np_sqrt (predictive_weight
                    / INR (length ignore_prediction_columns))) in
      py_assert (np_isclose (sum_squares weights) tot_weight);;
      wp ← series_getitem weights (elements pcols);
      wi ← series_getitem weights ignore_prediction_columns;
      py_assert (np_isclose (sum_squares wp) (sum_squares wi));;
      Ok weights
  end.

(** *** Two columns, the second one predictor-only *)

Lemma demo_prediction_columns : prediction_columns ["a"; "b"] ["b"] = {["a"]}.
Proof. vm_compute. reflexivity. Qed.

Lemma demo_elements : elements ({["a"]} : gset string) = ["a"].
Proof. vm_compute. reflexivity. Qed.

Lemma demo_assign v1 v2 :
  series_assign (series_assign (series_const 1 ["a"; "b"]) {["a"]} v1)
    (list_to_set ["b"]) v2 = [("a", v1); ("b", v2)].
Proof.
  unfold series_assign, series_const. simpl.
  repeat (first [rewrite decide_True by set_solver
                |rewrite decide_False by set_solver]; simpl).
  reflexivity.
Qed.

Lemma np_isclose_true a b :
  Rabs (a - b) <= / 100000000 + / 100000 * Rabs b → np_isclose a b = true.
Proof. intros H. unfold np_isclose. by destruct (Rle_dec _ _). Qed.

Lemma np_isclose_false a b :
  / 100000000 + / 100000 * Rabs b < Rabs (a - b) → np_isclose a b = false.
Proof. intros H. unfold np_isclose. destruct (Rle_dec _ _); [lra|done]. Qed.

(** The weights of the two groups as line 145 and line 148 compute them,
    for a prediction weight [pvw] between 0 and 1. *)
Lemma demo_weights pvw :
  0 <= pvw <= 1 →
  variables_weight ["a"; "b"] ["b"] (Some pvw)
  = (py_assert (np_isclose (pvw * 2) ((1 - pvw) * 2));;
     Ok [("a", Some (sqrt (pvw * 2))); ("b", Some (sqrt ((1 - pvw) * 2)))]).
Proof.
  intros Hp. unfold variables_weight.
  rewrite demo_prediction_columns, size_singleton, demo_elements, demo_assign.
  cbn [length].
  rewrite (bool_decide_eq_false_2 (1%nat = 0%nat)) by lia.
  rewrite (bool_decide_eq_true_2 (["b"] ⊆ ["a"; "b"])) by set_solver.
  replace (pvw * INR 2 / INR 1) with (pvw * 2) by (simpl; lra).
  replace ((INR 2 - pvw * INR 2) / INR 1) with ((1 - pvw) * 2)
    by (simpl; lra).
  unfold np_sqrt.
  destruct (Rlt_dec (pvw * 2) 0) as [?|_]; [lra|].
  destruct (Rlt_dec ((1 - pvw) * 2) 0) as [?|_]; [lra|].
  unfold series_getitem, series_select_one. simpl.
  replace (sqrt (pvw * 2) * (sqrt (pvw * 2) * 1)) with (pvw * 2)
    by (rewrite Rmult_1_r, sqrt_sqrt; lra).
  replace (sqrt ((1 - pvw) * 2) * (sqrt ((1 - pvw) * 2) * 1))
    with ((1 - pvw) * 2) by (rewrite Rmult_1_r, sqrt_sqrt; lra).
  rewrite (np_isclose_true (pvw * 2 + ((1 - pvw) * 2 + 0)) (1 + 1)).
  - simpl. by rewrite !Rplus_0_r.
  - replace (pvw * 2 + ((1 - pvw) * 2 + 0) - (1 + 1)) with 0 by lra.
    rewrite Rabs_R0, Rabs_right by lra. lra.
Qed.

(** An even split passes both assertions. *)
Example demo_weights_half :
  variables_weight ["a"; "b"] ["b"] (Some (/ 2))
  = Ok [("a", Some (sqrt (/ 2 * 2))); ("b", Some (sqrt ((1 - / 2) * 2)))].
Proof.
  rewrite demo_weights by lra.
  rewrite np_isclose_true; [done|].
  replace (/ 2 * 2 - (1 - / 2) * 2) with 0 by lra.
  rewrite Rabs_R0, Rabs_right by lra. lra.
Qed.

(** C2.  With a prediction weight of one quarter, two columns and the
    second one predictor-only, the two groups get the squared weights 1/2
    and 3/2: the assertion of lines 152-153 fails and no weight vector is
    returned. *)
Theorem variables_weight_quarter_raises :
  variables_weight ["a"; "b"] ["b"] (Some (/ 4)) = Raise AssertionError.
Proof.
  rewrite demo_weights by lra.
  rewrite np_isclose_false; [done|].
  replace (/ 4 * 2 - (1 - / 4) * 2) with (- (1)) by lra.
  rewrite Rabs_Ropp, Rabs_R1, (Rabs_right ((1 - / 4) * 2)) by lra. lra.
Qed.

(** *** Further behaviour of [variables_weight] *)



(** The series in which every predictor-only column weighs [b] and every
    other column [a]. *)
Definition two_weights (columns ignore : list string) (a b : option R)
  : Series :=
  map (fun c => (c, if decide (c ∈ ignore) then b else a)) columns.

Lemma assign_two_weights columns ignore a b :
  series_assign
    (series_assign (series_const 1 columns)
       (prediction_columns columns ignore) a)
    (list_to_set ignore) b
  = two_weights columns ignore a b.
Proof.
  unfold series_assign, series_const, two_weights, prediction_columns.
  rewrite !map_map. apply map_ext_in. intros c Hc%list_elem_of_In. simpl.
  destruct (decide (c ∈ ignore)) as [Hin|Hnin].
  - rewrite (decide_False (P := c ∈ _ ∖ _)) by set_solver. simpl.
    by rewrite decide_True by set_solver.
  - rewrite (decide_True (P := c ∈ _ ∖ _)) by set_solver. simpl.
    by rewrite decide_False by set_solver.
Qed.

Lemma select_two_weights columns ignore a b k :
  NoDup columns → k ∈ columns →
  series_select_one (two_weights columns ignore a b) k
  = Ok [(k, if decide (k ∈ ignore) then b else a)].
Proof.
  intros Hnd Hk. unfold series_select_one, two_weights.
  remember (filter _ _) as l eqn:Hl.
  assert (l = [(k, if decide (k ∈ ignore) then b else a)]) as ->; [|done].
  subst l. unfold Series.
  induction columns as [|c columns IH]; [by apply elem_of_nil in Hk|].
  apply NoDup_cons in Hnd as [Hc Hnd]. cbn [map].
  apply elem_of_cons in Hk as [->|Hk].
  - rewrite filter_cons_True by done. f_equal.
    apply filter_none. intros row (c' & -> & Hc')%list_elem_of_fmap. simpl.
    by intros ->.
  - rewrite filter_cons_False by (simpl; by intros ->). by apply IH.
Qed.

Lemma getitem_two_weights columns ignore a b keys :
  NoDup columns → (∀ k, k ∈ keys → k ∈ columns) →
  series_getitem (two_weights columns ignore a b) keys
  = Ok (map (fun k => (k, if decide (k ∈ ignore) then b else a)) keys).
Proof.
  intros Hnd Hkeys. unfold series_getitem.
  assert (rmap (series_select_one (two_weights columns ignore a b)) keys
          = Ok (map (fun k => [(k, if decide (k ∈ ignore) then b else a)])
                    keys)) as ->.
  { induction keys as [|k keys IH]; [done|]. simpl.
    rewrite select_two_weights by (done || apply Hkeys; left). simpl.
    rewrite IH by (intros k' Hk'; apply Hkeys; by right). done. }
  simpl. f_equal. induction keys as [|k keys IH]; [done|]. simpl. f_equal.
  apply IH. intros k' Hk'. apply Hkeys. by right.
Qed.

Lemma sum_squares_constant (f : string → option R) keys x :
  (∀ k, k ∈ keys → f k = Some x) →
  sum_squares (map (fun k => (k, f k)) keys) = INR (length keys) * x ^ 2.
Proof.
  induction keys as [|k keys IH]; intros Hf.
  - simpl. lra.
  - cbn [map sum_squares fold_right snd length]. rewrite S_INR.
    rewrite (Hf k) by left. fold (sum_squares (map (fun k => (k, f k)) keys)).
    rewrite IH by (intros k' Hk'; apply Hf; by right). lra.
Qed.

Lemma np_sqrt_nonneg x : 0 <= x → np_sqrt x = Some (sqrt x).
Proof. intros Hx. unfold np_sqrt. destruct (Rlt_dec x 0); [lra|done]. Qed.

Lemma count_times_share (n : nat) (total : R) :
  n ≠ 0%nat → 0 <= total →
  INR n * sqrt (total / INR n) ^ 2 = total.
Proof.
  intros Hn Ht.
  assert (0 < INR n) as Hpos by (apply lt_0_INR; lia).
  rewrite pow2_sqrt.
  - field. lra.
  - apply Rmult_le_pos; [done|]. left. by apply Rinv_0_lt_compat.
Qed.

Lemma variables_weight_Ok_isclose columns ignore pvw w :
  NoDup columns → ignore ≠ [] →
  (∀ c, c ∈ ignore → c ∈ columns) →
  0 <= pvw <= 1 →
  variables_weight columns ignore (Some pvw) = Ok w →
  np_isclose (pvw * INR (length columns))
             (INR (length columns) - pvw * INR (length columns)) = true.
Proof.
  intros Hnd Hne Hsub Hp. unfold variables_weight.
  rewrite bool_decide_eq_false_2 by (by destruct ignore).
  set (n := INR (length columns)).
  assert (0 <= n) as Hn by apply pos_INR.
  assert (0 <= pvw * n) as Hpw by (apply Rmult_le_pos; lra).
  assert (0 <= n - pvw * n) as Hqw by nra.
  set (P := prediction_columns columns ignore).
  destruct (bool_decide (size P = 0%nat)) eqn:HP; [discriminate|].
  apply bool_decide_eq_false in HP. cbn [mbind result_bind].
  rewrite bool_decide_eq_true_2 by (intros c; apply Hsub).
  cbn [mbind result_bind].
  assert (length ignore ≠ 0%nat) as Hlen by (by destruct ignore).
  assert (0 < INR (size P)) as HposP by (apply lt_0_INR; lia).
  assert (0 < INR (length ignore)) as HposI by (apply lt_0_INR; lia).
  rewrite !np_sqrt_nonneg
    by (apply Rmult_le_pos; [done|left; by apply Rinv_0_lt_compat]).
  subst P. rewrite assign_two_weights.
  destruct (np_isclose (sum_squares _) n); [|discriminate].
  cbn [py_assert mbind result_bind].
  rewrite !getitem_two_weights; try done.
  2: { intros k Hk%elem_of_elements. unfold prediction_columns in Hk.
       set_solver. }
  cbn [mbind result_bind].
  rewrite (sum_squares_constant
             (fun k => if decide (k ∈ ignore) then _ else _)
             (elements _)
             (sqrt (pvw * n / INR (size (prediction_columns columns ignore))))).
  2: { intros k Hk%elem_of_elements. unfold prediction_columns in Hk.
       rewrite decide_False; [done|set_solver]. }
  rewrite (sum_squares_constant
             (fun k => if decide (k ∈ ignore) then _ else _) ignore
             (sqrt ((n - pvw * n) / INR (length ignore)))).
  2: { intros k Hk. by rewrite decide_True. }
  change (length (elements (prediction_columns columns ignore)))
    with (size (prediction_columns columns ignore)).
  rewrite !count_times_share by done.
  destruct (np_isclose _ _); [done|discriminate].
Qed.

Lemma np_isclose_even_split pvw n :
  1 <= n → 0 <= pvw <= 1 →
  np_isclose (pvw * n) (n - pvw * n) = true →
  Rabs (pvw - / 2) < / 100000.
Proof.
  intros Hn Hp. unfold np_isclose.
  destruct (Rle_dec _ _) as [Hle|]; [intros _|discriminate].
  rewrite (Rabs_right (n - pvw * n)) in Hle by nra.
  unfold Rabs in *.
  destruct (Rcase_abs (pvw * n - (n - pvw * n)));
    destruct (Rcase_abs (pvw - / 2)); nra.
Qed.

(** X12.  With distinct columns, predictor-only columns that are all
    columns of the model, and a prediction weight between 0 and 1,
    [variables_weight] returns a weight vector only if the prediction
    weight is within 1e-5 of one half: the assertion of lines 152-153
    compares the squared weights of the two groups, which the assignments
    of lines 145-149 make [pvw * n] and [(1 - pvw) * n]. *)
Theorem variables_weight_needs_even_split columns ignore pvw w :
  NoDup columns → ignore ≠ [] →
  (∀ c, c ∈ ignore → c ∈ columns) →
  0 <= pvw <= 1 →
  variables_weight columns ignore (Some pvw) = Ok w →
  Rabs (pvw - / 2) < / 100000.
Proof.
  intros Hnd Hne Hsub Hp Hw.
  apply (np_isclose_even_split pvw (INR (length columns))); [|done|].
  - destruct ignore as [|c ignore]; [done|].
    assert (c ∈ columns) as Hc by (apply Hsub; left).
    destruct columns as [|c' columns]; [by apply elem_of_nil in Hc|].
    cbn [length]. rewrite S_INR. pose proof (pos_INR (length columns)). lra.
  - by eapply variables_weight_Ok_isclose.
Qed.

Lemma variables_weight_needs_even_split_witness :
  NoDup ["a"; "b"] ∧ ["b"] ≠ []
  ∧ (∀ c, c ∈ ["b"] → c ∈ ["a"; "b"])
  ∧ 0 <= / 2 <= 1
  ∧ variables_weight ["a"; "b"] ["b"] (Some (/ 2))
    = Ok [("a", Some (sqrt (/ 2 * 2))); ("b", Some (sqrt ((1 - / 2) * 2)))]
  ∧ Rabs (/ 2 - / 2) < / 100000.
Proof.
  assert (NoDup ["a"; "b"]) as H1
    by (apply (@bool_decide_unpack (NoDup ["a"; "b"]) _);
        vm_compute; exact I).
  assert (["b"] ≠ @nil string) as H2 by discriminate.
  assert (∀ c : string, c ∈ ["b"] → c ∈ ["a"; "b"]) as H3
    by (intros c Hc; by right).
  assert (0 <= / 2 <= 1) as H4 by lra.
  split; [exact H1|]. split; [exact H2|]. split; [exact H3|].
  split; [exact H4|]. split; [exact demo_weights_half|].
  exact (variables_weight_needs_even_split ["a"; "b"] ["b"] (/ 2) _
           H1 H2 H3 H4 demo_weights_half).
Defined.

End Weights.

(** ** Persistence: [TSAR._build_matrices], [TSAR.save_model], [load_model]
    (lines 285-290 and 526-551)

    An instance is its [__dict__]: a finite map from attribute names to
    Python objects.  Reading an attribute that was never assigned raises
    [AttributeError]. *)

Module Persist.

Definition saved_attributes : list string :=
  ["frequency"; "past_lag"; "future_lag"; "columns";
   "baseline_params_columns"; "baseline_results_columns"; "_min"; "_max";
   "available_data_lags_columns"; "rank"; "quadratic_regularization";
   "s_times_v"; "S_lagged_covariances"; "block_lagged_covariances";
   "ignore_prediction_columns"].

Definition matrix_attributes : list string :=
  ["V"; "S"; "S_inv"; "D_blocks"; "D_matrix"].

Section Persist.

(** Python objects, and the byte strings of [pickle] and [gzip]. *)
Variables value bytes : Type.

Variable pickle_dumps : gmap string value -> bytes.
Variable pickle_loads : bytes -> result (gmap string value).
Variable gzip_compress : bytes -> bytes.
Variable gzip_decompress : bytes -> result bytes.

Hypothesis pickle_loads_dumps : ∀ d, pickle_loads (pickle_dumps d) = Ok d.
Hypothesis gzip_decompress_compress :
  ∀ b, gzip_decompress (gzip_compress b) = Ok b.

(** [AR.build_matrices], the Structured Matrix Builder. *)
Variable build_matrices :
  value -> value -> value -> result (value * value * value * value * value).

Definition getattr (self : gmap string value) (name : string)
  : result value :=
  match self !! name with
  | Some v => Ok v
  | None => Raise AttributeError
  end.

Definition _build_matrices (self : gmap string value)
  : result (gmap string value) :=
  s_times_v ← getattr self "s_times_v";
  S_lagged_covariances ← getattr self "S_lagged_covariances";
  block_lagged_covariances ← getattr self "block_lagged_covariances";
  '(mV, mS, mS_inv, mD_blocks, mD_matrix) ←
    build_matrices s_times_v S_lagged_covariances block_lagged_covariances;
  Ok (<["D_matrix" := mD_matrix]> (<["D_blocks" := mD_blocks]>
       (<["S_inv" := mS_inv]> (<["S" := mS]> (<["V" := mV]> self))))).

Definition save_model (self : gmap string value) : result bytes :=
  values ← rmap (getattr self) saved_attributes;
  let model_dict : gmap string value :=
    list_to_map (zip saved_attributes values) in
  Ok (gzip_compress (pickle_dumps model_dict)).

Definition load_model (model_compressed : bytes)
  : result (gmap string value) :=
  let model : gmap string value := ∅ in          (* TSAR.__new__(TSAR) *)
  raw ← gzip_decompress model_compressed;
  d ← pickle_loads raw;
  let model := d ∪ model in                      (* __dict__.update *)
  _build_matrices model.

(** The structured-covariance matrices an instance holds. *)
Definition matrices (self : gmap string value)
  : result (value * value * value * value * value) :=
  mV ← getattr self "V";
  mS ← getattr self "S";
  mS_inv ← getattr self "S_inv";
  mD_blocks ← getattr self "D_blocks";
  mD_matrix ← getattr self "D_matrix";
  Ok (mV, mS, mS_inv, mD_blocks, mD_matrix).

Lemma getattr_Ok self name v : getattr self name = Ok v ↔ self !! name = Some v.
Proof. unfold getattr. destruct (self !! name); split; congruence. Qed.

Lemma rmap_getattr_lookup self keys values :
  rmap (getattr self) keys = Ok values →
  ∀ k, k ∈ keys →
    (list_to_map (zip keys values) : gmap string value) !! k = self !! k.
Proof.
  intros H%rmap_Ok_Forall2.
  induction H as [|k0 v0 keys values Hk0 _ IH]; intros k Hk.
  - by apply elem_of_nil in Hk.
  - apply getattr_Ok in Hk0. simpl.
    destruct (decide (k0 = k)) as [->|Hne].
    + by rewrite lookup_insert_eq.
    + rewrite lookup_insert_ne by done. apply IH.
      by apply elem_of_cons in Hk as [->|Hk].
Qed.

Lemma build_matrices_Ok_inv self self' :
  _build_matrices self = Ok self' →
  ∃ st sl bl mV mS mS_inv mD_blocks mD_matrix,
    self !! "s_times_v" = Some st
    ∧ self !! "S_lagged_covariances" = Some sl
    ∧ self !! "block_lagged_covariances" = Some bl
    ∧ build_matrices st sl bl = Ok (mV, mS, mS_inv, mD_blocks, mD_matrix)
    ∧ self' = <["D_matrix" := mD_matrix]> (<["D_blocks" := mD_blocks]>
               (<["S_inv" := mS_inv]> (<["S" := mS]> (<["V" := mV]> self)))).
Proof.
  unfold _build_matrices. intros H.
  destruct (getattr self "s_times_v") as [st|] eqn:H1; simpl in H;
    [|discriminate].
  destruct (getattr self "S_lagged_covariances") as [sl|] eqn:H2;
    simpl in H; [|discriminate].
  destruct (getattr self "block_lagged_covariances") as [bl|] eqn:H3;
    simpl in H; [|discriminate].
  destruct (build_matrices st sl bl) as [[[[[mV mS] mS_inv] mDb] mDm]|]
    eqn:H4; simpl in H; [|discriminate].
  injection H as <-. apply getattr_Ok in H1, H2, H3.
  by exists st, sl, bl, mV, mS, mS_inv, mDb, mDm.
Qed.

Lemma matrices_installed self mV mS mS_inv mD_blocks mD_matrix :
  matrices (<["D_matrix" := mD_matrix]> (<["D_blocks" := mD_blocks]>
             (<["S_inv" := mS_inv]> (<["S" := mS]> (<["V" := mV]> self)))))
  = Ok (mV, mS, mS_inv, mD_blocks, mD_matrix).
Proof. unfold matrices, getattr. by simplify_map_eq. Qed.

(** C3.  Take a fitted model: its last fitting step (line 318) built the
    matrices from the statistics it holds.  Saving and reloading it
    gives a model whose matrices are [build_matrices] of the three
    saved statistics, equal to the matrices of the model that was saved;
    the saved attributes come back unchanged, and the reloaded model
    holds nothing besides them and the five matrices.  [load_model]
    calls the builder only: no fitting function occurs in it. *)
Theorem load_model_save_model self0 self blob :
  _build_matrices self0 = Ok self →
  save_model self = Ok blob →
  ∃ model st sl bl,
    self !! "s_times_v" = Some st
    ∧ self !! "S_lagged_covariances" = Some sl
    ∧ self !! "block_lagged_covariances" = Some bl
    ∧ load_model blob = Ok model
    ∧ matrices model = build_matrices st sl bl
    ∧ matrices model = matrices self
    ∧ (∀ k, k ∈ saved_attributes → model !! k = self !! k)
    ∧ dom model = list_to_set (saved_attributes ++ matrix_attributes).
Proof.
  intros Hfit Hsave.
  apply build_matrices_Ok_inv in Hfit
    as (st & sl & bl & mV & mS & mSi & mDb & mDm
        & Hst & Hsl & Hbl & Hbuild & ->).
  unfold save_model in Hsave.
  destruct (rmap _ saved_attributes) as [values|] eqn:Hvals;
    simpl in Hsave; [|discriminate].
  injection Hsave as <-.
  pose proof (rmap_getattr_lookup _ _ _ Hvals) as Hd.
  set (self := <["D_matrix" := mDm]> _) in *.
  set (d := (list_to_map (zip saved_attributes values)
             : gmap string value)) in *.
  assert (self !! "s_times_v" = Some st) as Hst'
    by (subst self; by simplify_map_eq).
  assert (self !! "S_lagged_covariances" = Some sl) as Hsl'
    by (subst self; by simplify_map_eq).
  assert (self !! "block_lagged_covariances" = Some bl) as Hbl'
    by (subst self; by simplify_map_eq).
  assert (dom d = list_to_set saved_attributes) as Hdom.
  { subst d. rewrite dom_list_to_map_L, fst_zip; [done|].
    apply rmap_Ok_Forall2, Forall2_length in Hvals. lia. }
  eexists _, st, sl, bl. split; [done|]. split; [done|]. split; [done|].
  assert (load_model (gzip_compress (pickle_dumps d))
          = Ok (<["D_matrix" := mDm]> (<["D_blocks" := mDb]>
                 (<["S_inv" := mSi]> (<["S" := mS]> (<["V" := mV]> d))))))
    as Hload.
  { unfold load_model.
    rewrite gzip_decompress_compress. simpl.
    rewrite pickle_loads_dumps. simpl.
    rewrite (right_id_L ∅ (∪)). unfold _build_matrices, getattr.
    rewrite !Hd by (unfold saved_attributes; set_solver).
    rewrite Hst', Hsl', Hbl'. simpl. by rewrite Hbuild. }
  split; [exact Hload|].
  split; [by rewrite matrices_installed|].
  split; [subst self; by rewrite !matrices_installed|].
  split.
  - intros k Hk. rewrite <- (Hd k Hk).
    rewrite !lookup_insert_ne; [done|..];
      intros <-; unfold saved_attributes in Hk; set_solver.
  - rewrite !dom_insert_L, Hdom, list_to_set_app_L.
    unfold matrix_attributes. set_solver.
Qed.

(** *** Further behaviour of saving, loading and rebuilding *)

Lemma getattr_Raise self name e : getattr self name = Raise e → e = AttributeError.
Proof. unfold getattr. destruct (self !! name); congruence. Qed.

(** The dictionary that [save_model] pickles: the instance restricted to
    the saved attributes. *)
Definition persisted (self : gmap string value) : gmap string value :=
  filter (fun kv => fst kv ∈ saved_attributes) self.

Lemma save_model_closed_form self :
  save_model self
  = if decide (Forall (fun k => is_Some (self !! k)) saved_attributes)
    then Ok (gzip_compress (pickle_dumps (persisted self)))
    else Raise AttributeError.
Proof.
  unfold save_model, persisted.
  remember saved_attributes as keys eqn:Hkeys. clear Hkeys.
  destruct (decide _) as [Hall|Hnot].
  - destruct (rmap_total (getattr self) keys) as [values Hv].
    { intros k Hk. rewrite Forall_forall in Hall.
      destruct (Hall k Hk) as [v Hkv]. exists v. by apply getattr_Ok. }
    rewrite Hv. cbn [mbind result_bind]. do 3 f_equal.
    apply map_eq. intros k. rewrite map_lookup_filter.
    destruct (decide (k ∈ keys)) as [Hk|Hk].
    + rewrite (rmap_getattr_lookup _ _ _ Hv k Hk).
      destruct (self !! k); simpl; [|done]. by rewrite option_guard_True.
    + rewrite (not_elem_of_list_to_map_1 _ k).
      * destruct (self !! k); simpl; [|done]. by rewrite option_guard_False.
      * rewrite fst_zip; [done|].
        apply rmap_Ok_Forall2, Forall2_length in Hv. lia.
  - rewrite (rmap_Raise _ _ AttributeError); [done| |].
    + intros k e _ H. by apply getattr_Raise in H.
    + apply not_Forall_Exists in Hnot; [|apply _].
      apply Exists_exists in Hnot as (k & Hk & Hnone).
      exists k. split; [done|]. unfold getattr.
      destruct (self !! k) eqn:E; [|done]. exfalso. apply Hnone. by eexists.
Qed.

(** X6.  [save_model] raises [AttributeError] exactly when one of the
    fifteen saved attributes was never assigned (a model that was not
    fitted), and succeeds otherwise. *)
Theorem save_model_needs_all_saved_attributes self :
  (save_model self = Raise AttributeError
   ↔ ∃ k, k ∈ saved_attributes ∧ self !! k = None)
  ∧ ((∃ blob, save_model self = Ok blob)
     ↔ ∀ k, k ∈ saved_attributes → is_Some (self !! k)).
Proof.
  rewrite save_model_closed_form. destruct (decide _) as [Hall|Hnot].
  - rewrite Forall_forall in Hall. split.
    + split; [discriminate|]. intros (k & Hk & Hnone).
      destruct (Hall k Hk) as [v Hv]. congruence.
    + split; [done|]. intros _. by eexists.
  - split.
    + split; [|done]. intros _.
      apply not_Forall_Exists in Hnot; [|apply _].
      apply Exists_exists in Hnot as (k & Hk & Hnone). exists k.
      split; [done|]. destruct (self !! k) eqn:E; [|done].
      exfalso. apply Hnone. by eexists.
    + split; [by intros [blob ?]|]. intros Hall. exfalso. apply Hnot.
      by apply Forall_forall.
Qed.




(** X8.  Rebuilding the matrices changes no other attribute and is
    idempotent: a second call of [_build_matrices] leaves the instance as
    the first call left it. *)
Theorem build_matrices_twice self self' :
  _build_matrices self = Ok self' →
  _build_matrices self' = Ok self'
  ∧ ∀ k, k ∉ matrix_attributes → self' !! k = self !! k.
Proof.
  clear pickle_loads_dumps gzip_decompress_compress
        pickle_dumps pickle_loads gzip_compress gzip_decompress.
  intros H. apply build_matrices_Ok_inv in H
    as (st & sl & bl & mV & mS & mSi & mDb & mDm
        & Hst & Hsl & Hbl & Hbuild & ->).
  split.
  - unfold _build_matrices, getattr.
    rewrite !lookup_insert_ne by done. rewrite Hst, Hsl, Hbl. simpl.
    rewrite Hbuild. simpl. f_equal. apply map_eq. intros k.
    destruct (decide (k = "D_matrix")) as [->|?]; [by simplify_map_eq|].
    destruct (decide (k = "D_blocks")) as [->|?]; [by simplify_map_eq|].
    destruct (decide (k = "S_inv")) as [->|?]; [by simplify_map_eq|].
    destruct (decide (k = "S")) as [->|?]; [by simplify_map_eq|].
    destruct (decide (k = "V")) as [->|?]; by simplify_map_eq.
  - intros k Hk. rewrite !lookup_insert_ne; [done|..];
      intros <-; apply Hk; unfold matrix_attributes; set_solver.
Qed.

(** X9.  Loading a blob whose pickled dictionary lacks one of the three
    sufficient statistics raises [AttributeError]. *)
Theorem load_model_missing_statistic blob raw d :
  gzip_decompress blob = Ok raw →
  pickle_loads raw = Ok d →
  d !! "s_times_v" = None ∨ d !! "S_lagged_covariances" = None
  ∨ d !! "block_lagged_covariances" = None →
  load_model blob = Raise AttributeError.
Proof.
  intros Hz Hp Hmiss. unfold load_model. rewrite Hz. simpl. rewrite Hp. simpl.
  rewrite (right_id_L ∅ (∪)). unfold _build_matrices, getattr.
  destruct (d !! "s_times_v"); simpl; [|done].
  destruct (d !! "S_lagged_covariances"); simpl; [|done].
  destruct (d !! "block_lagged_covariances"); simpl; [|done].
  by destruct Hmiss as [?|[?|?]].
Qed.


End Persist.

(** A toy instance: objects are numbers, pickling and compression keep
    the dictionary as it is, and the builder returns sums of the
    statistics. *)
Definition demo_build (a b c : nat)
  : result (nat * nat * nat * nat * nat) :=
  Ok (a, b, a + b, c, b + c).

Definition demo_unfitted : gmap string nat :=
  list_to_map (zip saved_attributes (seq 1 15)).

Definition demo_fitted : gmap string nat :=
  <["D_matrix" := 27]> (<["D_blocks" := 14]> (<["S_inv" := 25]>
    (<["S" := 13]> (<["V" := 12]> demo_unfitted)))).

Lemma load_model_save_model_witness :
  _build_matrices nat demo_build demo_unfitted = Ok demo_fitted
  ∧ save_model nat (gmap string nat) (fun d => d) (fun b => b) demo_fitted = Ok demo_unfitted
  ∧ ∃ model st sl bl,
      demo_fitted !! "s_times_v" = Some st
      ∧ demo_fitted !! "S_lagged_covariances" = Some sl
      ∧ demo_fitted !! "block_lagged_covariances" = Some bl
      ∧ load_model nat (gmap string nat) Ok Ok demo_build demo_unfitted
        = Ok model
      ∧ matrices nat model = demo_build st sl bl
      ∧ matrices nat model = matrices nat demo_fitted
      ∧ (∀ k, k ∈ saved_attributes → model !! k = demo_fitted !! k)
      ∧ dom model = list_to_set (saved_attributes ++ matrix_attributes).
Proof.
  assert (_build_matrices nat demo_build demo_unfitted = Ok demo_fitted)
    as Hfit by (vm_compute; reflexivity).
  assert (save_model nat (gmap string nat) (fun d => d) (fun b => b) demo_fitted
          = Ok demo_unfitted) as Hsave by (vm_compute; reflexivity).
  split; [exact Hfit|]. split; [exact Hsave|].
  exact (load_model_save_model nat (gmap string nat) (fun d => d) Ok
           (fun b => b) Ok
           (fun _ => eq_refl) (fun _ => eq_refl) demo_build
           demo_unfitted demo_fitted demo_unfitted Hfit Hsave).
Defined.

(** *** Instances of the further properties *)



Lemma build_matrices_twice_witness :
  _build_matrices nat demo_build demo_unfitted = Ok demo_fitted
  ∧ _build_matrices nat demo_build demo_fitted = Ok demo_fitted
  ∧ ∀ k, k ∉ matrix_attributes → demo_fitted !! k = demo_unfitted !! k.
Proof.
  assert (_build_matrices nat demo_build demo_unfitted = Ok demo_fitted)
    as H by (vm_compute; reflexivity).
  split; [exact H|].
  exact (build_matrices_twice nat demo_build demo_unfitted demo_fitted H).
Defined.

Lemma load_model_missing_statistic_witness :
  (∅ : gmap string nat) !! "s_times_v" = None
  ∧ load_model nat (gmap string nat) Ok Ok demo_build ∅
    = Raise AttributeError.
Proof.
  split; [reflexivity|].
  exact (load_model_missing_statistic nat (gmap string nat) Ok Ok demo_build
           ∅ ∅ ∅ eq_refl eq_refl (or_introl eq_refl)).
Defined.


End Persist.

(** ** Dense matrices

    The operands of the [Sigma] property (lines 190-192).  Numbers are kept
    abstract: [add] and [mul] stand for the floating-point operations and no
    algebraic law is assumed of them.  A matrix carries its shape, as a
    numpy array does, so that a matrix without rows still has a width. *)

Module Dense.

Record matrix (num : Type) : Type := mkMatrix {
  nrows : nat;
  ncols : nat;
  rows : list (list num)
}.

Arguments mkMatrix {num} _ _ _.
Arguments nrows {num} _.
Arguments ncols {num} _.
Arguments rows {num} _.

(** The rows agree with the declared shape. *)
Definition well_shaped {num} (n m : nat) (M : matrix num) : Prop :=
  nrows M = n ∧ ncols M = m ∧ length (rows M) = n
  ∧ Forall (fun r => length r = m) (rows M).

Section Dense.

Context {num : Type}.
Variable zero : num.
Variables add mul : num -> num -> num.

Definition row (i : nat) (M : matrix num) : list num := nth i (rows M) [].

Definition col (j : nat) (M : matrix num) : list num :=
  map (fun r => nth j r zero) (rows M).

Definition entry (M : matrix num) (i j : nat) : num := nth j (row i M) zero.

(** The sum of the products of corresponding entries, accumulated from
    the right. *)
Definition dot (u v : list num) : num :=
  fold_right add zero (zip_with mul u v).

(** [M.T] *)
Definition transpose (M : matrix num) : matrix num :=
  mkMatrix (ncols M) (nrows M) (map (fun j => col j M) (seq 0 (ncols M))).

(** [A @ B]: [ValueError] unless the inner dimensions agree. *)
Definition matmul (A B : matrix num) : result (matrix num) :=
  if decide (ncols A = nrows B)
  then Ok (mkMatrix (nrows A) (ncols B)
             (map (fun r => map (fun j => dot r (col j B)) (seq 0 (ncols B)))
                  (rows A)))
  else Raise ValueError.

(** [A + B] for operands of one shape. *)
Definition madd (A B : matrix num) : result (matrix num) :=
  if decide (nrows A = nrows B ∧ ncols A = ncols B)
  then Ok (mkMatrix (nrows A) (ncols A)
             (zip_with (zip_with add) (rows A) (rows B)))
  else Raise ValueError.

(** [V @ S @ V.T + D_matrix], evaluated left to right as Python does. *)
Definition Sigma_of (V S D_matrix : matrix num) : result (matrix num) :=
  VS ← matmul V S;
  VSVt ← matmul VS (transpose V);
  madd VSVt D_matrix.

Lemma nth_map_lt {A B} (f : A -> B) l i d d' :
  i < length l → nth i (map f l) d' = f (nth i l d).
Proof.
  revert i. induction l as [|a l IH]; intros [|i] Hi; simpl in *;
    try lia; [done|]. apply IH. lia.
Qed.

Lemma nth_seq_lt i n : i < n → nth i (seq 0 n) 0 = i.
Proof. intros. by rewrite seq_nth. Qed.

Lemma map_nth_seq {A} (r : list A) d :
  map (fun l => nth l r d) (seq 0 (length r)) = r.
Proof.
  induction r as [|a r IH]; [done|]. simpl. f_equal.
  rewrite <- seq_shift, map_map. exact IH.
Qed.

Lemma row_length n m (M : matrix num) i :
  well_shaped n m M → i < n → length (row i M) = m.
Proof.
  intros (_ & _ & Hlen & Hall) Hi. unfold row.
  rewrite Forall_forall in Hall. apply Hall.
  apply list_elem_of_In, nth_In. lia.
Qed.

(** Column [j] of the transpose is row [j]. *)
Lemma col_transpose n m (M : matrix num) j :
  well_shaped n m M → j < n → col j (transpose M) = row j M.
Proof.
  intros HM Hj. pose proof (row_length n m M j HM Hj) as Hrow.
  destruct HM as (_ & Hm & Hlen & _).
  unfold col, transpose. simpl. rewrite map_map, Hm, <- Hrow.
  rewrite <- (map_nth_seq (row j M) zero) at 2.
  apply map_ext_in. intros l _. unfold col, row.
  apply (nth_map_lt (fun r => nth l r zero)). lia.
Qed.

Lemma matmul_Ok n k m (A B : matrix num) :
  well_shaped n k A → well_shaped k m B →
  ∃ C, matmul A B = Ok C ∧ well_shaped n m C
       ∧ ∀ i, i < n →
           row i C = map (fun j => dot (row i A) (col j B)) (seq 0 m).
Proof.
  intros (HnA & HkA & HlenA & HallA) (HkB & HmB & HlenB & HallB).
  unfold matmul. rewrite decide_True by congruence.
  eexists. split; [done|]. split.
  - repeat split; simpl; try done.
    + by rewrite length_map.
    + apply Forall_forall. intros r (r0 & -> & _)%list_elem_of_fmap.
      by rewrite length_map, length_seq.
  - intros i Hi. unfold row at 1. simpl. rewrite HmB.
    apply (nth_map_lt (fun r => map (fun j => dot r (col j B)) (seq 0 m))).
    lia.
Qed.

Lemma nth_zip_with_lt {A B C} (f : A -> B -> C) l k i da db dc :
  i < length l → i < length k →
  nth i (zip_with f l k) dc = f (nth i l da) (nth i k db).
Proof.
  revert k i. induction l as [|a l IH]; intros [|b k] [|i] Hl Hk;
    simpl in *; try lia; [done|]. apply IH; lia.
Qed.

Lemma madd_Ok n m (A B : matrix num) :
  well_shaped n m A → well_shaped n m B →
  ∃ C, madd A B = Ok C ∧ well_shaped n m C
       ∧ ∀ i j, i < n → j < m →
           entry C i j = add (entry A i j) (entry B i j).
Proof.
  intros HA HB.
  pose proof (fun i => row_length n m A i HA) as HrA.
  pose proof (fun i => row_length n m B i HB) as HrB.
  destruct HA as (HnA & HmA & HlenA & HallA).
  destruct HB as (HnB & HmB & HlenB & HallB).
  unfold madd. rewrite decide_True by (split; congruence).
  eexists. split; [done|]. split.
  - repeat split; simpl; try done.
    + rewrite length_zip_with. lia.
    + rewrite Forall_forall in HallA, HallB. apply Forall_forall.
      intros r Hr. apply list_elem_of_lookup in Hr as [i Hi].
      apply lookup_zip_with_Some in Hi as (x & y & -> & Hx & Hy).
      rewrite length_zip_with.
      rewrite (HallA x), (HallB y); [lia|..];
        by eapply list_elem_of_lookup_2.
  - intros i j Hi Hj. unfold entry, row. simpl.
    rewrite (nth_zip_with_lt _ _ _ _ [] [] []) by lia.
    apply nth_zip_with_lt.
    + fold (row i A). rewrite HrA; lia.
    + fold (row i B). rewrite HrB; lia.
Qed.

(** The entries of [Sigma]: entry [(i, j)] of [V S Vᵗ] is the product of
    row [i] of [V S] with row [j] of [V], and entry [(i, l)] of [V S] is
    the product of row [i] of [V] with column [l] of [S]. *)
Lemma Sigma_of_entries n k (V S D_matrix : matrix num) :
  well_shaped n k V → well_shaped k k S → well_shaped n n D_matrix →
  ∃ Sg, Sigma_of V S D_matrix = Ok Sg ∧ well_shaped n n Sg
        ∧ ∀ i j, i < n → j < n →
            entry Sg i j
            = add (dot (map (fun l => dot (row i V) (col l S)) (seq 0 k))
                       (row j V))
                  (entry D_matrix i j).
Proof.
  intros HV HS HD. unfold Sigma_of.
  destruct (matmul_Ok n k k V S HV HS) as (VS & -> & HVS & HrowVS). simpl.
  assert (well_shaped k n (transpose V)) as HVt.
  { destruct HV as (HnV & HkV & HlenV & HallV).
    repeat split; simpl; try done.
    - by rewrite length_map, length_seq.
    - apply Forall_forall. intros r (j & -> & _)%list_elem_of_fmap.
      unfold col. by rewrite length_map. }
  destruct (matmul_Ok n k n VS (transpose V) HVS HVt)
    as (VSVt & -> & HVSVt & Hrow). simpl.
  destruct (madd_Ok n n VSVt D_matrix HVSVt HD) as (Sg & -> & HSg & Hent).
  exists Sg. split; [done|]. split; [done|].
  intros i j Hi Hj. rewrite (Hent i j Hi Hj). f_equal.
  unfold entry. rewrite (Hrow i Hi).
  rewrite (nth_map_lt _ _ _ 0) by (rewrite length_seq; lia).
  rewrite seq_nth by lia. simpl.
  by rewrite (col_transpose n k V j HV Hj), (HrowVS i Hi).
Qed.

End Dense.

End Dense.

(** ** Prediction and evaluation: [_fit_ranges], [_clip_prediction],
    [_residual], [_invert_residual], [test_AR], [predict_many], [predict]

    A cell of a residual or data frame is [Some x] for a number and [None]
    for NaN.  Numbers stay abstract: [leb] is the comparison [<=] of two
    numbers that are not NaN, [mul] the floating-point product.  Time
    stamps are counted in units of the model's frequency. *)

Module Predict.

Import Dense.

(** The attributes of a fitted instance that prediction and evaluation
    read.  [baseline_std c] is [baseline_results_columns[c]['std']]; the
    five matrices are the attributes [V], [S], [S_inv], [D_blocks] and
    [D_matrix]. *)
Record TSAR (num : Type) : Type := mkTSAR {
  columns : list string;
  past_lag : nat;
  future_lag : nat;
  available_data_lags_columns : gmap string Z;
  ignore_prediction_columns : list string;
  baseline_std : gmap string num;
  _min : gmap string (option num);
  _max : gmap string (option num);
  quadratic_regularization : num;
  m_V : matrix num;
  m_S : matrix num;
  m_S_inv : matrix num;
  m_D_blocks : list (matrix num);
  m_D_matrix : matrix num
}.

Arguments mkTSAR {num} _ _ _ _ _ _ _ _ _ _ _ _ _ _.
Arguments columns {num} _.
Arguments past_lag {num} _.
Arguments future_lag {num} _.
Arguments available_data_lags_columns {num} _.
Arguments ignore_prediction_columns {num} _.
Arguments baseline_std {num} _.
Arguments _min {num} _.
Arguments _max {num} _.
Arguments quadratic_regularization {num} _.
Arguments m_V {num} _.
Arguments m_S {num} _.
Arguments m_S_inv {num} _.
Arguments m_D_blocks {num} _.
Arguments m_D_matrix {num} _.

(** [TSAR.lag] (lines 161-163) *)
Definition lag {num} (self : TSAR num) : nat := past_lag self + future_lag self.

(** [df.apply(f)]: [f] gets each column with its label and the index. *)
Definition df_apply {A B} (f : string -> list Z -> list A -> list B)
    (df : DataFrame A) : DataFrame B :=
  mkFrame (df_index df)
    (map (fun c => (fst c, f (fst c) (df_index df) (snd c))) (df_cols df)).

(** [df.reindex(new_index)]: the row of each requested time stamp, NaN
    where the frame has none; pandas refuses an index with repeats. *)
Definition df_reindex {num} (df : DataFrame (option num)) (new_index : list Z)
  : result (DataFrame (option num)) :=
  if decide (NoDup (df_index df))
  then Ok (mkFrame new_index
             (map (fun c =>
                     (fst c,
                      map (fun t =>
                             match list_find (fun t' => t' = t) (df_index df)
                             with
                             | Some (i, _) => mjoin (snd c !! i)
                             | None => None
                             end) new_index))
                  (df_cols df)))
  else Raise ValueError.

(** [values.flatten(order='F')]: one column after the other. *)
Definition flatten_F {A} (df : DataFrame A) : list A :=
  concat (map snd (df_cols df)).

(** [pd.DataFrame(v.reshape(shape, order='F'), index, columns)]: the flat
    vector cut into one segment of [nrows] cells per column. *)
Fixpoint reshape_F {A} (nrows : nat) (labels : list string) (v : list A)
  : list (string * list A) :=
  match labels with
  | [] => []
  | c :: labels' => (c, take nrows v) :: reshape_F nrows labels' (drop nrows v)
  end.

(** [a[mask] = values] for a one-dimensional boolean mask: the values fill
    the selected positions in order. *)
Fixpoint masked_fill {A} (a : list A) (mask : list bool) (values : list A)
  : list A :=
  match a, mask with
  | x :: a', true :: mask' =>
      match values with
      | v :: values' => v :: masked_fill a' mask' values'
      | [] => x :: masked_fill a' mask' []
      end
  | x :: a', false :: mask' => x :: masked_fill a' mask' values
  | _, _ => a
  end.

Definition count_true (mask : list bool) : nat :=
  length (filter (fun b => b = true) mask).

(** numpy accepts as many values as selected positions, or a single value
    that it repeats; the mask must be as long as the array. *)
Definition masked_assign {A} (a : list A) (mask : list bool) (values : list A)
  : result (list A) :=
  if negb (bool_decide (length mask = length a)) then Raise IndexError
  else if bool_decide (length values = count_true mask)
  then Ok (masked_fill a mask values)
  else match values with
       | [v] => Ok (masked_fill a mask (replicate (count_true mask) v))
       | _ => Raise ValueError
       end.

Section Pipeline.

Context {num : Type}.
Variable zero : num.
Variable mul : num -> num -> num.
Variable leb : num -> num -> bool.

Local Abbreviation cell := (option num).

(** *** Fitted ranges and clipping (lines 220-226) *)

(** [min] and [max] of a column, skipping NaN; NaN for a column without
    a number. *)
Definition col_min (cells : list cell) : cell :=
  fold_right (fun c acc =>
                match c, acc with
                | Some x, Some y => Some (if leb x y then x else y)
                | Some x, None => Some x
                | None, _ => acc
                end) None cells.

Definition col_max (cells : list cell) : cell :=
  fold_right (fun c acc =>
                match c, acc with
                | Some x, Some y => Some (if leb x y then y else x)
                | Some x, None => Some x
                | None, _ => acc
                end) None cells.

(** [data.min()], [data.max()]: a Series over the column labels. *)
Definition _fit_ranges (data : DataFrame cell)
  : gmap string cell * gmap string cell :=
  (list_to_map (map (fun c => (fst c, col_min (snd c))) (df_cols data)),
   list_to_map (map (fun c => (fst c, col_max (snd c))) (df_cols data))).

(** One cell under [clip(lower, upper)]: NaN stays NaN, and a bound that
    is NaN (or missing for the column) does not clip. *)
Definition clip_cell (lower upper : cell) (x : cell) : cell :=
  match x with
  | None => None
  | Some v =>
      let v1 := match lower with
                | Some lo => if leb lo v then v else lo
                | None => v
                end in
      Some (match upper with
            | Some hi => if leb v1 hi then v1 else hi
            | None => v1
            end)
  end.

(** [prediction.clip(self._min, self._max, axis=1)]: the bounds are
    aligned with the columns by label. *)
Definition _clip_prediction (self : TSAR num) (prediction : DataFrame cell)
  : DataFrame cell :=
  mkFrame (df_index prediction)
    (map (fun c => (fst c,
                    map (clip_cell (mjoin (_min self !! fst c))
                                   (mjoin (_max self !! fst c))) (snd c)))
         (df_cols prediction)).

(** *** Residuals (lines 360-379)

    [baseline.data_to_residual], [baseline.residual_to_data] and their
    non-parametric variants, chosen per column by
    [baseline_params_columns]: each maps a column, given its label and
    index, to a column. *)
Variable _column_residual : string -> list Z -> list cell -> list cell.
Variable _column_invert_residual : string -> list Z -> list cell -> list cell.

Definition _residual (data : DataFrame cell) : DataFrame cell :=
  df_apply _column_residual data.

Definition _invert_residual (self : TSAR num) (data : DataFrame cell)
  : DataFrame cell :=
  _clip_prediction self (df_apply _column_invert_residual data).

(** *** Evaluation: [test_AR] (lines 320-336) *)

(** The gradient diagnostics of [AR.rmse_AR] and [AR.guess_matrix]. *)
Variable gradients : Type.

Variable rmse_AR :
  matrix num -> matrix num -> matrix num -> list (matrix num) -> matrix num ->
  nat -> nat -> DataFrame cell -> gmap string Z -> list string -> num ->
  result (DataFrame cell * gradients).

(** [df[lbl] *= s]: every column labelled [lbl] is multiplied by [s]. *)
Definition scale_label (lbl : string) (s : num) (df : DataFrame cell)
  : DataFrame cell :=
  mkFrame (df_index df)
    (map (fun c => if decide (fst c = lbl)
                   then (fst c, map (fmap (fun x => mul x s)) (snd c))
                   else c) (df_cols df)).

(** [for col in labels: df[col] *= baseline_results_columns[col]['std']] *)
Fixpoint scale_by_std (std : gmap string num) (labels : list string)
    (df : DataFrame cell) : result (DataFrame cell) :=
  match labels with
  | [] => Ok df
  | col :: labels' =>
      match std !! col with
      | Some s => scale_by_std std labels' (scale_label col s df)
      | None => Raise KeyError
      end
  end.

Definition test_AR (self : TSAR num) (test : DataFrame cell)
  : result (DataFrame cell * gradients) :=
  test ← df_getitem test (columns self);
  '(AR_RMSE, grads) ←
    rmse_AR (m_V self) (m_S self) (m_S_inv self) (m_D_blocks self)
            (m_D_matrix self) (past_lag self) (future_lag self)
            (_residual test) (available_data_lags_columns self)
            (ignore_prediction_columns self) (quadratic_regularization self);
  AR_RMSE ← scale_by_std (baseline_std self) (df_labels AR_RMSE) AR_RMSE;
  Ok (AR_RMSE, grads).

(** The column [c] of a frame once the loop over [labels] has run. *)
Definition scaled_column (std : gmap string num) (labels : list string)
    (c : string * list cell) : string * list cell :=
  if decide (fst c ∈ labels)
  then match std !! fst c with
       | Some s => (fst c, map (fmap (fun x => mul x s)) (snd c))
       | None => c
       end
  else c.

Lemma scale_by_std_Ok std labels df :
  NoDup labels →
  (∀ c, c ∈ labels → is_Some (std !! c)) →
  scale_by_std std labels df
  = Ok (mkFrame (df_index df) (map (scaled_column std labels) (df_cols df))).
Proof.
  revert df. induction labels as [|col labels IH]; intros df Hnd Hstd.
  - simpl. destruct df as [idx cols]. simpl. f_equal. f_equal.
    rewrite <- (map_id cols) at 1. apply map_ext. intros c.
    unfold scaled_column. destruct (decide _) as [Hin|]; [|done].
    by apply elem_of_nil in Hin.
  - apply NoDup_cons in Hnd as [Hcol Hnd].
    destruct (Hstd col) as [s Hs]; [left|]. simpl. rewrite Hs.
    rewrite IH; [|done|by intros c Hc; apply Hstd; right].
    simpl. f_equal. f_equal. rewrite map_map. apply map_ext. intros c.
    unfold scaled_column.
    destruct (decide (fst c = col)) as [->|Hne]; simpl.
    + rewrite Hs, decide_False by done.
      by rewrite decide_True by left.
    + destruct (decide (fst c ∈ labels)) as [Hin|Hnin].
      * by rewrite decide_True by (by right).
      * rewrite decide_False; [done|].
        by intros [?|?]%elem_of_cons.
Qed.

(** C9.  When the residual-unit RMSE frame that [rmse_AR] returns has one
    column per label and the baseline of each of them has a scale, the
    frame that [test_AR] returns has the same index and labels, and each
    of its columns is the corresponding RMSE column with every entry (one
    per lag) multiplied by the stored [std] of that column; the gradients
    are passed through. *)
Theorem test_AR_rescales self test test' rm grads :
  df_getitem test (columns self) = Ok test' →
  rmse_AR (m_V self) (m_S self) (m_S_inv self) (m_D_blocks self)
          (m_D_matrix self) (past_lag self) (future_lag self)
          (_residual test') (available_data_lags_columns self)
          (ignore_prediction_columns self) (quadratic_regularization self)
  = Ok (rm, grads) →
  NoDup (df_labels rm) →
  (∀ c, c ∈ df_labels rm → is_Some (baseline_std self !! c)) →
  ∃ out, test_AR self test = Ok (out, grads)
    ∧ df_index out = df_index rm
    ∧ Forall2 (fun cin cout =>
                 fst cout = fst cin
                 ∧ ∃ std, baseline_std self !! fst cin = Some std
                     ∧ snd cout = map (fmap (fun x => mul x std)) (snd cin))
              (df_cols rm) (df_cols out).
Proof.
  intros Hget Hrmse Hnd Hstd. unfold test_AR.
  rewrite Hget. simpl. rewrite Hrmse. simpl.
  rewrite scale_by_std_Ok by done. simpl.
  eexists. split; [done|]. split; [done|]. simpl.
  apply Forall2_fmap_r, Forall_Forall2_diag, Forall_forall.
  intros c Hc. unfold scaled_column.
  assert (fst c ∈ df_labels rm) as Hin by (by apply list_elem_of_fmap_2).
  simpl. rewrite decide_True by done.
  destruct (Hstd _ Hin) as [std Hs]. rewrite Hs. simpl. eauto.
Qed.

(** *** Prediction at one time: [predict] (lines 413-499) *)

(** [utils.check_multidimensional_time_series(data, frequency, columns)] *)
Variable check_multidimensional_time_series :
  DataFrame cell -> list string -> result unit.

(** [linear_algebra.make_block_indexes] and its result. *)
Variable block_indexes : Type.
Variable make_block_indexes : list (matrix num) -> block_indexes.

(** The interface of [linear_algebra.symm_low_rank_plus_block_diag_schur]:
    [V], [S], [S_inv], [D_blocks], [D_blocks_indexes], [D_matrix],
    [known_mask], [known_matrix], [prediction_mask],
    [return_conditional_covariance], [quadratic_regularization]
    ([real_result] is always [None]).  It returns the predicted values
    and, read only when requested, the conditional covariance. *)
Definition schur_solver : Type :=
  matrix num -> matrix num -> matrix num -> list (matrix num) ->
  block_indexes -> matrix num -> list bool -> list num -> list bool ->
  bool -> num -> result (list cell * matrix num).

(** [~np.isnan(v)] *)
Definition notnan (v : list cell) : list bool :=
  map (fun c => match c with Some _ => true | None => false end) v.

(** [np.diag(M)] *)
Definition diag (M : matrix num) : list num :=
  map (fun i => entry zero M i i) (seq 0 (Nat.min (nrows M) (ncols M))).

(** Lines 427-433: the residuals of the window of [lag] time stamps that
    ends [future_lag - 1] steps after the prediction time. *)
Definition predict_window (self : TSAR num) (data : DataFrame cell)
    (prediction_time : option Z) : result (DataFrame cell) :=
  check_multidimensional_time_series data (columns self);;
  data ← df_getitem data (columns self);
  prediction_time ←
    match prediction_time with
    | Some t => Ok t
    | None => match last (df_index data) with
              | Some t => Ok (t + 1)%Z
              | None => Raise IndexError
              end
    end;
  let prediction_index :=
    seqZ (prediction_time - Z.of_nat (past_lag self)) (Z.of_nat (lag self)) in
  prediction_slice ← df_reindex data prediction_index;
  Ok (_residual prediction_slice).

(** Lines 471-480: the conditional standard deviations, zero at the known
    entries, scaled column by column. *)
Definition predict_sigma (self : TSAR num) (residual_slice : DataFrame cell)
    (known_mask : list bool) (Sigma : matrix num)
  : result (DataFrame cell) :=
  sigval ← masked_assign (replicate (length known_mask) (Some zero))
             (map negb known_mask) (map Some (diag Sigma));
  let sigma :=
    mkFrame (df_index residual_slice)
      (reshape_F (length (df_index residual_slice))
                 (df_labels residual_slice) sigval) in
  scale_by_std (baseline_std self) (df_labels sigma) sigma.

(** Lines 434-494: the window with its unknown entries filled in by the
    solver, and the scaled deviations when they are requested. *)
Definition predict_fill (solver : schur_solver) (self : TSAR num)
    (residual_slice : DataFrame cell) (return_sigmas : bool)
  : result (DataFrame cell * option (DataFrame cell)) :=
  let residual_vectorized := flatten_F residual_slice in
  let D_blocks_indexes := make_block_indexes (m_D_blocks self) in
  let known_mask := notnan residual_vectorized in
  '(predicted, Sigma) ←
    solver (m_V self) (m_S self) (m_S_inv self) (m_D_blocks self)
           D_blocks_indexes (m_D_matrix self) known_mask
           (omap (fun c => c) residual_vectorized) (map negb known_mask)
           return_sigmas (quadratic_regularization self);
  sigma ← (if return_sigmas
           then Some <$> predict_sigma self residual_slice known_mask Sigma
           else Ok None);
  residual_vectorized ←
    masked_assign residual_vectorized (map negb known_mask) predicted;
  Ok (mkFrame (df_index residual_slice)
        (reshape_F (length (df_index residual_slice))
                   (df_labels residual_slice) residual_vectorized),
      sigma).

Definition predict (solver : schur_solver) (self : TSAR num)
    (data : DataFrame cell) (prediction_time : option Z)
    (return_sigmas : bool)
  : result (DataFrame cell * option (DataFrame cell)) :=
  residual_slice ← predict_window self data prediction_time;
  '(predicted_residuals, sigma) ←
    predict_fill solver self residual_slice return_sigmas;
  Ok (_invert_residual self predicted_residuals, sigma).

(** *** Prediction over a whole frame: [predict_many] (lines 381-411) *)

(** [AR.make_sliced_flattened_matrix], [AR.make_prediction_mask] (it
    returns the prediction mask and the unknown mask) and
    [AR.guess_matrix] (it fills its first argument in place and returns
    the gradients and the number of predictions). *)
Variable make_sliced_flattened_matrix :
  DataFrame cell -> nat -> result (matrix cell).

Definition mask_maker : Type :=
  gmap string Z -> list bool -> list string -> nat -> nat ->
  result (list bool * list bool).

Variable guess_matrix :
  matrix cell -> matrix num -> matrix num -> matrix num ->
  list (matrix num) -> matrix num -> num -> list bool -> matrix cell ->
  result (matrix cell * gradients * nat).

(** [m[:, mask] = np.nan] *)
Definition set_nan_columns (m : matrix cell) (mask : list bool)
  : result (matrix cell) :=
  if bool_decide (length mask = ncols m)
  then Ok (mkMatrix (nrows m) (ncols m)
             (map (fun r => masked_fill r mask
                              (replicate (count_true mask) None)) (rows m)))
  else Raise IndexError.

(** [l[start:stop]] for a start that is not negative. *)
Definition py_slice {A} (l : list A) (start : nat) (stop : Z) : list A :=
  let len := Z.of_nat (length l) in
  let stop' := if (stop <? 0)%Z then Z.max 0 (len + stop)
               else Z.min stop len in
  take (Z.to_nat stop' - start) (drop start l).

(** Lines 384-398: what is handed to [guess_matrix]: the flattened
    residuals with the unknown slots blanked, the two masks, the copy of
    the real values, and the frame restricted to the model's columns. *)
Definition predict_many_input (make_prediction_mask : mask_maker)
    (self : TSAR num) (data : DataFrame cell)
  : result (matrix cell * list bool * list bool * matrix cell
            * DataFrame cell) :=
  check_multidimensional_time_series data (columns self);;
  data ← df_getitem data (columns self);
  let residuals := _residual data in
  residuals_flattened ← make_sliced_flattened_matrix residuals (lag self);
  let ignore_prediction_col_mask :=
    map (fun c => bool_decide (c ∈ ignore_prediction_columns self))
        (df_labels residuals) in
  '(prediction_mask, unknown_mask) ←
    make_prediction_mask (available_data_lags_columns self)
      ignore_prediction_col_mask (df_labels residuals)
      (past_lag self) (future_lag self);
  let real_values := residuals_flattened in
  residuals_flattened ← set_nan_columns residuals_flattened unknown_mask;
  Ok (residuals_flattened, prediction_mask, unknown_mask, real_values, data).

(** [res.loc[:, fut_lag + 1]]: of each variable the slot [fut_lag] steps
    into the future, found at [past_lag + fut_lag] in the variable's
    segment of [lag] slots. *)
Definition res_at_lag (self : TSAR num) (index : list Z) (m : matrix cell)
    (fut_lag : nat) : result (DataFrame cell) :=
  match columns self with
  | [] => Raise KeyError
  | _ =>
    Ok (mkFrame index
          (imap (fun vi c =>
                   (c, map (fun r => mjoin (r !! (vi * lag self
                                                  + past_lag self + fut_lag)))
                           (rows m)))
                (columns self)))
  end.

Definition predict_many (make_prediction_mask : mask_maker)
    (self : TSAR num) (data : DataFrame cell)
  : result (list (nat * DataFrame cell)) :=
  '(residuals_flattened, prediction_mask, unknown_mask, real_values, data) ←
    predict_many_input make_prediction_mask self data;
  '(residuals_flattened, grads, total_num_predictions_made) ←
    guess_matrix residuals_flattened (m_V self) (m_S self) (m_S_inv self)
      (m_D_blocks self) (m_D_matrix self) (quadratic_regularization self)
      prediction_mask real_values;
  let index :=
    py_slice (df_index data) (past_lag self)
      (Z.of_nat (length (df_index data)) - Z.of_nat (future_lag self) + 1) in
  (* pd.DataFrame(data, columns, index) checks the shape *)
  (if bool_decide (nrows residuals_flattened = length index
                   ∧ ncols residuals_flattened
                     = length (columns self) * lag self)
   then Ok tt else Raise ValueError);;
  rmap (fun fut_lag =>
          res ← res_at_lag self index residuals_flattened fut_lag;
          Ok (fut_lag + 1, _invert_residual self res))
       (seq 0 (future_lag self)).

(** *** Predictions stay within the fitted range *)

Lemma bind_Ok {A B} (r : result A) (f : A -> result B) b :
  r ≫= f = Ok b → ∃ a, r = Ok a ∧ f a = Ok b.
Proof. destruct r as [a|e]; simpl; [eauto|discriminate]. Qed.

Lemma rmap_Ok_elem {A B} (f : A -> result B) l bs b :
  rmap f l = Ok bs → b ∈ bs → ∃ a, a ∈ l ∧ f a = Ok b.
Proof.
  intros H%rmap_Ok_Forall2 Hb.
  induction H as [|a b' l bs Hab _ IH]; [by apply elem_of_nil in Hb|].
  apply elem_of_cons in Hb as [->|Hb].
  - exists a. split; [left|done].
  - destruct (IH Hb) as (a' & ? & ?). exists a'. split; [by right|done].
Qed.

(** Every number of the frame [out] lies between the least and the
    greatest number observed in the column of the same label of
    [fit_data], whenever that column holds a number at all. *)
Definition in_fitted_range (fit_data out : DataFrame cell) : Prop :=
  ∀ c cells x obs,
    (c, cells) ∈ df_cols out → Some x ∈ cells →
    (c, obs) ∈ df_cols fit_data → (∃ y, Some y ∈ obs) →
    ∃ lo hi, Some lo ∈ obs ∧ Some hi ∈ obs
      ∧ (∀ y, Some y ∈ obs → leb lo y = true ∧ leb y hi = true)
      ∧ leb lo x = true ∧ leb x hi = true.

Section Order.

(** The comparison of numbers is a total preorder. *)
Hypothesis leb_total : ∀ x y, leb x y = true ∨ leb y x = true.
Hypothesis leb_trans :
  ∀ x y z, leb x y = true → leb y z = true → leb x z = true.

Lemma leb_refl x : leb x x = true.
Proof. by destruct (leb_total x x). Qed.

Lemma clip_cell_bounds lo hi x v :
  leb lo hi = true → clip_cell (Some lo) (Some hi) x = Some v →
  leb lo v = true ∧ leb v hi = true.
Proof.
  intros Hlh. destruct x as [v0|]; simpl; [|discriminate].
  intros [= <-].
  destruct (leb lo v0) eqn:H0.
  - destruct (leb v0 hi) eqn:H1; [done|]. split; [done|apply leb_refl].
  - rewrite Hlh. split; [apply leb_refl|done].
Qed.

Lemma col_min_spec cells :
  match col_min cells with
  | Some lo => Some lo ∈ cells ∧ ∀ y, Some y ∈ cells → leb lo y = true
  | None => ∀ y, Some y ∉ cells
  end.
Proof.
  induction cells as [|[x|] cells IH]; simpl.
  - intros y Hy. by apply elem_of_nil in Hy.
  - destruct (col_min cells) as [m|].
    + destruct IH as [Hm Hle]. destruct (leb x m) eqn:Hxm.
      * split; [left|]. intros y [[= ->]|Hy]%elem_of_cons;
          [apply leb_refl|]. eapply leb_trans; eauto.
      * split; [by right|]. intros y [[= ->]|Hy]%elem_of_cons; [|auto].
        by destruct (leb_total x m) as [?|?]; [congruence|].
    + split; [left|]. intros y [[= ->]|Hy]%elem_of_cons; [apply leb_refl|].
      by destruct (IH y).
  - destruct (col_min cells) as [m|].
    + destruct IH as [Hm Hle]. split; [by right|].
      intros y [?|Hy]%elem_of_cons; [done|auto].
    + intros y [?|Hy]%elem_of_cons; [done|by apply (IH y)].
Qed.

Lemma col_max_spec cells :
  match col_max cells with
  | Some hi => Some hi ∈ cells ∧ ∀ y, Some y ∈ cells → leb y hi = true
  | None => ∀ y, Some y ∉ cells
  end.
Proof.
  induction cells as [|[x|] cells IH]; simpl.
  - intros y Hy. by apply elem_of_nil in Hy.
  - destruct (col_max cells) as [m|].
    + destruct IH as [Hm Hle]. destruct (leb x m) eqn:Hxm.
      * split; [by right|]. intros y [[= ->]|Hy]%elem_of_cons; [done|auto].
      * assert (leb m x = true) as Hmx
          by (by destruct (leb_total x m) as [?|?]; [congruence|]).
        split; [left|]. intros y [[= ->]|Hy]%elem_of_cons;
          [apply leb_refl|]. eapply leb_trans; eauto.
    + split; [left|]. intros y [[= ->]|Hy]%elem_of_cons; [apply leb_refl|].
      by destruct (IH y).
  - destruct (col_max cells) as [m|].
    + destruct IH as [Hm Hle]. split; [by right|].
      intros y [?|Hy]%elem_of_cons; [done|auto].
    + intros y [?|Hy]%elem_of_cons; [done|by apply (IH y)].
Qed.

Lemma fit_ranges_lookup data c obs :
  NoDup (df_labels data) → (c, obs) ∈ df_cols data →
  (_fit_ranges data).1 !! c = Some (col_min obs)
  ∧ (_fit_ranges data).2 !! c = Some (col_max obs).
Proof.
  intros Hnd Hin. unfold _fit_ranges, df_labels in *. simpl.
  split; apply elem_of_list_to_map_1.
  - by rewrite <- list_fmap_compose.
  - by apply (list_elem_of_fmap_2 (fun c => (c.1, col_min c.2)) _ (c, obs)).
  - by rewrite <- list_fmap_compose.
  - by apply (list_elem_of_fmap_2 (fun c => (c.1, col_max c.2)) _ (c, obs)).
Qed.

Lemma clip_prediction_in_range self fit_data prediction :
  (_min self, _max self) = _fit_ranges fit_data →
  NoDup (df_labels fit_data) →
  in_fitted_range fit_data (_clip_prediction self prediction).
Proof.
  intros Hfit Hnd c cells x obs Hc Hx Hobs [y Hy].
  destruct (fit_ranges_lookup _ _ _ Hnd Hobs) as [Hmin Hmax].
  rewrite <- Hfit in Hmin, Hmax. simpl in Hmin, Hmax.
  pose proof (col_min_spec obs) as Hlo. pose proof (col_max_spec obs) as Hhi.
  destruct (col_min obs) as [lo|]; [|by destruct (Hlo y)].
  destruct (col_max obs) as [hi|]; [|by destruct (Hhi y)].
  destruct Hlo as [Hlo_in Hlo], Hhi as [Hhi_in Hhi].
  exists lo, hi. split; [done|]. split; [done|]. split; [by auto|].
  unfold _clip_prediction in Hc. simpl in Hc.
  apply list_elem_of_fmap in Hc as ([c' cells0] & [= -> ->] & _).
  simpl in Hx. rewrite Hmin, Hmax in Hx. simpl in Hx.
  apply list_elem_of_fmap in Hx as (x0 & Hx0 & _).
  apply (clip_cell_bounds lo hi x0); [|done].
  eapply leb_trans; [apply Hlo|apply Hhi]; done.
Qed.

(** C10.  Let the stored ranges be those [_fit_ranges] computed from the
    fit data.  Every number in the frame that [predict] returns, and in
    each frame that [predict_many] returns, lies between the least and
    the greatest number observed in its column of the fit data: both
    return frames produced by [_invert_residual], which clips last. *)
Theorem predictions_within_fitted_range solver make_prediction_mask
    self fit_data :
  (_min self, _max self) = _fit_ranges fit_data →
  NoDup (df_labels fit_data) →
  (∀ data prediction_time return_sigmas out sigma,
     predict solver self data prediction_time return_sigmas
     = Ok (out, sigma) →
     in_fitted_range fit_data out)
  ∧ (∀ data outs fut_lag out,
       predict_many make_prediction_mask self data = Ok outs →
       (fut_lag, out) ∈ outs →
       in_fitted_range fit_data out).
Proof.
  intros Hfit Hnd. split.
  - intros data pt rs out sigma H. unfold predict in H.
    apply bind_Ok in H as (residual_slice & _ & H).
    apply bind_Ok in H as ([pr sg] & _ & H).
    injection H as <- _. by apply clip_prediction_in_range.
  - intros data outs k out H Hin. unfold predict_many in H.
    apply bind_Ok in H as ([[[[m pm] um] rv] data'] & _ & H).
    apply bind_Ok in H as ([[m' g] total] & _ & H).
    apply bind_Ok in H as ([] & _ & H).
    destruct (rmap_Ok_elem _ _ _ _ H Hin) as (k' & _ & Hk).
    apply bind_Ok in Hk as (res & _ & Hk).
    injection Hk as _ <-. by apply clip_prediction_in_range.
Qed.

End Order.

(** *** The dense covariance [Sigma] (lines 190-192) and the solver *)

Variable add : num -> num -> num.

Definition Sigma (self : TSAR num) : result (matrix num) :=
  Sigma_of zero add mul (m_V self) (m_S self) (m_D_matrix self).

(** The operands the solver receives from [predict]. *)
Definition same_on_structure (self : TSAR num) (return_sigmas : bool)
    (solver1 solver2 : schur_solver) : Prop :=
  ∀ known_mask known_matrix prediction_mask,
    solver1 (m_V self) (m_S self) (m_S_inv self) (m_D_blocks self)
            (make_block_indexes (m_D_blocks self)) (m_D_matrix self)
            known_mask known_matrix prediction_mask return_sigmas
            (quadratic_regularization self)
    = solver2 (m_V self) (m_S self) (m_S_inv self) (m_D_blocks self)
              (make_block_indexes (m_D_blocks self)) (m_D_matrix self)
              known_mask known_matrix prediction_mask return_sigmas
              (quadratic_regularization self).

(** C4.  For a model whose [V] is [n] by [k], [S] is [k] by [k] and
    [D_matrix] is [n] by [n], the property [Sigma] evaluates without error
    to the [n] by [n] matrix whose entry [(i, j)] is
    [(V S Vᵗ)(i, j) + D_matrix(i, j)].  [predict] reaches the matrices
    only through the structured solver, called on [V], [S], [S_inv],
    [D_blocks], the block indexes and [D_matrix]: two solvers that agree
    on these operands give the same prediction, and [Sigma] is no operand. *)
Theorem Sigma_is_low_rank_plus_block_diagonal self n k :
  well_shaped n k (m_V self) → well_shaped k k (m_S self) →
  well_shaped n n (m_D_matrix self) →
  (∃ Sg, Sigma self = Ok Sg ∧ well_shaped n n Sg
     ∧ ∀ i j, i < n → j < n →
         entry zero Sg i j
         = add (dot zero add mul
                  (map (fun l => dot zero add mul (row i (m_V self))
                                     (col zero l (m_S self))) (seq 0 k))
                  (row j (m_V self)))
               (entry zero (m_D_matrix self) i j))
  ∧ (∀ solver1 solver2 data prediction_time return_sigmas,
       same_on_structure self return_sigmas solver1 solver2 →
       predict solver1 self data prediction_time return_sigmas
       = predict solver2 self data prediction_time return_sigmas).
Proof.
  intros HV HS HD. split.
  - by apply Sigma_of_entries.
  - intros solver1 solver2 data pt rs Hsame. unfold predict.
    destruct (predict_window self data pt) as [residual_slice|e];
      simpl; [|done].
    unfold predict_fill. by rewrite Hsame.
Qed.

(** *** A window without unknown entries *)

(** The numerical core of the inference engine, used when some entry is
    unknown: the Woodbury-style conditional mean and covariance. *)
Variable schur_core : schur_solver.

(** Modelled from the spec: [linear_algebra.symm_low_rank_plus_block_diag_schur]
    is not part of the sources.  Spec 7(c): a known-value vector whose
    length disagrees with the true-count of [known_mask] fails fast with
    [ShapeMismatch].  Spec 4.4, edge cases: if [known_mask] is all-true
    the unknown set is empty and the engine returns an empty prediction
    (and zero conditional variance, here the covariance over no entries)
    without error.  Otherwise the conditional mean and covariance are
    those of [schur_core]. *)
Definition schur_engine : schur_solver :=
  fun mV mS mS_inv mD_blocks D_blocks_indexes mD_matrix
      known_mask known_matrix prediction_mask
      return_conditional_covariance quadratic_regularization =>
  if negb (bool_decide (length known_matrix = count_true known_mask))
  then Raise ShapeMismatch
  else if bool_decide (count_true known_mask = length known_mask)
  then Ok ([], mkMatrix 0 0 [])
  else schur_core mV mS mS_inv mD_blocks D_blocks_indexes mD_matrix
         known_mask known_matrix prediction_mask
         return_conditional_covariance quadratic_regularization.

Lemma masked_fill_length {A} (a : list A) mask values :
  length (masked_fill a mask values) = length a.
Proof.
  revert mask values.
  induction a as [|x a IH]; intros [|[] mask] values; simpl; try done.
  - destruct values; simpl; by rewrite IH.
  - by rewrite IH.
Qed.

Lemma masked_fill_unselected {A} (a : list A) mask values i :
  mask !! i = Some false → masked_fill a mask values !! i = a !! i.
Proof.
  revert mask values i.
  induction a as [|x a IH]; intros [|b mask] values [|i] Hi; simpl in *;
    try done.
  - injection Hi as ->. done.
  - destruct b; [destruct values|]; simpl; by apply IH.
Qed.

Lemma masked_fill_nil {A} (a : list A) mask : masked_fill a mask [] = a.
Proof.
  revert mask. induction a as [|x a IH]; intros [|[] mask]; simpl;
    by rewrite ?IH.
Qed.

Lemma masked_assign_Ok {A} (a : list A) mask values a' :
  masked_assign a mask values = Ok a' →
  length a' = length a ∧ ∀ i, mask !! i = Some false → a' !! i = a !! i.
Proof.
  unfold masked_assign. destruct (negb _); [discriminate|].
  destruct (bool_decide _).
  - intros [= <-]. split; [apply masked_fill_length|].
    intros i. apply masked_fill_unselected.
  - destruct values as [|v [|??]]; try discriminate.
    intros [= <-]. split; [apply masked_fill_length|].
    intros i. apply masked_fill_unselected.
Qed.

Lemma notnan_length v : length (notnan v) = length v.
Proof. unfold notnan. by rewrite length_map. Qed.

Lemma notnan_known v i x :
  v !! i = Some (Some x) → map negb (notnan v) !! i = Some false.
Proof.
  revert i. induction v as [|c v IH]; intros [|i] H; simpl in *; try done.
  - by injection H as ->.
  - by apply IH.
Qed.

(** No entry of [v] is NaN. *)
Definition all_known (v : list cell) : Prop := Forall (fun c => is_Some c) v.

Lemma all_known_masks v :
  all_known v →
  count_true (notnan v) = length (notnan v)
  ∧ count_true (map negb (notnan v)) = 0
  ∧ length (omap (fun c => c) v) = count_true (notnan v).
Proof.
  unfold count_true.
  induction 1 as [|c v [x ->] _ (IH1 & IH2 & IH3)]; [done|].
  simpl. rewrite filter_cons_False by done.
  split; [by rewrite IH1|]. split; [done|]. f_equal. exact IH3.
Qed.

Lemma masked_assign_nothing {A} (a : list A) mask :
  length mask = length a → count_true mask = 0 →
  masked_assign a mask [] = Ok a.
Proof.
  intros Hlen Hcount. unfold masked_assign.
  rewrite bool_decide_eq_true_2 by done. simpl.
  rewrite bool_decide_eq_true_2 by done. by rewrite masked_fill_nil.
Qed.

Lemma schur_engine_all_known mV mS mS_inv mD_blocks idx mD_matrix v rs reg :
  all_known v →
  schur_engine mV mS mS_inv mD_blocks idx mD_matrix (notnan v)
    (omap (fun c => c) v) (map negb (notnan v)) rs reg
  = Ok ([], mkMatrix 0 0 []).
Proof.
  intros (H1 & H2 & H3)%all_known_masks. unfold schur_engine.
  rewrite bool_decide_eq_true_2 by done. simpl.
  by rewrite bool_decide_eq_true_2 by done.
Qed.

(** The window as a frame again, from its flat vector [v]. *)
Definition window_frame (residual_slice : DataFrame cell) (v : list cell)
  : DataFrame cell :=
  mkFrame (df_index residual_slice)
    (reshape_F (length (df_index residual_slice))
               (df_labels residual_slice) v).

Lemma predict_fill_all_known self residual_slice :
  all_known (flatten_F residual_slice) →
  predict_fill schur_engine self residual_slice false
  = Ok (window_frame residual_slice (flatten_F residual_slice), None)
  ∧ predict_fill schur_engine self residual_slice true
    = (sigma ← scale_by_std (baseline_std self) (df_labels residual_slice)
                 (window_frame residual_slice
                    (replicate (length (flatten_F residual_slice))
                               (Some zero)));
       Ok (window_frame residual_slice (flatten_F residual_slice),
           Some sigma)).
Proof.
  intros Hall. pose proof (all_known_masks _ Hall) as (H1 & H2 & H3).
  assert (length (map negb (notnan (flatten_F residual_slice)))
          = length (flatten_F residual_slice)) as Hlen
    by (by rewrite length_map, notnan_length).
  unfold predict_fill. rewrite !schur_engine_all_known by done. simpl.
  rewrite masked_assign_nothing by done. split; [done|].
  unfold predict_sigma, diag. simpl.
  rewrite masked_assign_nothing
    by (by rewrite ?length_replicate, ?length_map, ?notnan_length).
  simpl. rewrite notnan_length.
  assert (df_labels (mkFrame (df_index residual_slice)
            (reshape_F (length (df_index residual_slice))
               (df_labels residual_slice)
               (replicate (length (flatten_F residual_slice)) (Some zero))))
          = df_labels residual_slice) as ->.
  { unfold df_labels. simpl.
    generalize (replicate (length (flatten_F residual_slice)) (Some zero)).
    induction (map fst (df_cols residual_slice)) as [|c l IH]; intros v;
      simpl; [done|]. by rewrite IH. }
  unfold window_frame.
  by destruct (scale_by_std _ _ _).
Qed.

Lemma predict_fill_known_unchanged solver self residual_slice flag pr sg :
  predict_fill solver self residual_slice flag = Ok (pr, sg) →
  ∃ v', pr = window_frame residual_slice v'
    ∧ length v' = length (flatten_F residual_slice)
    ∧ ∀ i x, flatten_F residual_slice !! i = Some (Some x)
             → v' !! i = Some (Some x).
Proof.
  unfold predict_fill. intros H.
  apply bind_Ok in H as ([predicted Sg] & _ & H).
  apply bind_Ok in H as (sigma & _ & H).
  apply bind_Ok in H as (v' & Hv' & H). injection H as <- _.
  apply masked_assign_Ok in Hv' as [Hlen Hsame].
  exists v'. split; [done|]. split; [done|].
  intros i x Hi. rewrite Hsame; [done|]. by eapply notnan_known.
Qed.

(** C8.  Take the residual window of a prediction.  If none of its
    entries is missing, the inference engine is called with an all-true
    known mask and returns the empty prediction and a conditional
    covariance over no entries, without error; [predict] then returns the
    window itself, converted back to original units, and, when deviations
    are requested, a frame of zeros scaled by the columns' [std].  For
    any window and any solver, the residual of every known entry is the
    same in the frame that [predict] converts back as in the window. *)
Theorem predict_all_known solver self data prediction_time residual_slice :
  predict_window self data prediction_time = Ok residual_slice →
  (all_known (flatten_F residual_slice) →
     (∀ return_sigmas,
        schur_engine (m_V self) (m_S self) (m_S_inv self) (m_D_blocks self)
          (make_block_indexes (m_D_blocks self)) (m_D_matrix self)
          (notnan (flatten_F residual_slice))
          (omap (fun c => c) (flatten_F residual_slice))
          (map negb (notnan (flatten_F residual_slice)))
          return_sigmas (quadratic_regularization self)
        = Ok ([], mkMatrix 0 0 []))
     ∧ predict schur_engine self data prediction_time false
       = Ok (_invert_residual self
               (window_frame residual_slice (flatten_F residual_slice)),
             None)
     ∧ predict schur_engine self data prediction_time true
       = (sigma ← scale_by_std (baseline_std self)
                    (df_labels residual_slice)
                    (window_frame residual_slice
                       (replicate (length (flatten_F residual_slice))
                                  (Some zero)));
          Ok (_invert_residual self
                (window_frame residual_slice (flatten_F residual_slice)),
              Some sigma)))
  ∧ (∀ return_sigmas out sigma,
       predict solver self data prediction_time return_sigmas
       = Ok (out, sigma) →
       ∃ v', out = _invert_residual self (window_frame residual_slice v')
         ∧ length v' = length (flatten_F residual_slice)
         ∧ ∀ i x, flatten_F residual_slice !! i = Some (Some x)
                  → v' !! i = Some (Some x)).
Proof.
  intros Hwin. split.
  - intros Hall. split; [intros rs; by apply schur_engine_all_known|].
    destruct (predict_fill_all_known self residual_slice Hall) as [Hf Ht].
    unfold predict. rewrite Hwin. simpl. rewrite Hf, Ht. simpl.
    split; [done|]. by destruct (scale_by_std _ _ _).
  - intros flag out sigma H. unfold predict in H. rewrite Hwin in H.
    simpl in H. apply bind_Ok in H as ([pr sg] & Hfill & H).
    injection H as <- _.
    apply predict_fill_known_unchanged in Hfill as (v' & -> & ? & ?).
    by exists v'.
Qed.

(** *** Further behaviour of evaluation and prediction *)

Lemma df_apply_shape {A B} (f : string -> list Z -> list A -> list B) df :
  df_index (df_apply f df) = df_index df
  ∧ df_labels (df_apply f df) = df_labels df.
Proof.
  split; [done|]. unfold df_labels, df_apply. simpl.
  rewrite map_map. by apply map_ext.
Qed.

Lemma clip_prediction_shape self prediction :
  df_index (_clip_prediction self prediction) = df_index prediction
  ∧ df_labels (_clip_prediction self prediction) = df_labels prediction.
Proof.
  split; [done|]. unfold df_labels, _clip_prediction. simpl.
  rewrite map_map. by apply map_ext.
Qed.

Lemma invert_residual_shape self frame :
  df_index (_invert_residual self frame) = df_index frame
  ∧ df_labels (_invert_residual self frame) = df_labels frame.
Proof.
  unfold _invert_residual.
  destruct (clip_prediction_shape self (df_apply _column_invert_residual frame))
    as [-> ->].
  apply df_apply_shape.
Qed.

Lemma reshape_F_labels {A} n labels (v : list A) :
  map fst (reshape_F n labels v) = labels.
Proof.
  revert v. induction labels as [|c labels IH]; intros v; [done|].
  simpl. by rewrite IH.
Qed.

Lemma scale_by_std_KeyError std labels df :
  (∃ c, c ∈ labels ∧ std !! c = None) →
  scale_by_std std labels df = Raise KeyError.
Proof.
  revert df. induction labels as [|col labels IH]; intros df (c & Hc & Hnone).
  - by apply elem_of_nil in Hc.
  - simpl. destruct (std !! col) as [s|] eqn:Hs; [|done].
    apply IH. exists c. split; [|done].
    apply elem_of_cons in Hc as [->|Hc]; [congruence|done].
Qed.

Lemma scale_by_std_shape std labels df out :
  scale_by_std std labels df = Ok out →
  df_index out = df_index df ∧ df_labels out = df_labels df.
Proof.
  revert df. induction labels as [|col labels IH]; intros df; simpl.
  - by intros [= <-].
  - destruct (std !! col) as [s|]; [|discriminate]. intros H.
    apply IH in H as [-> ->]. split; [done|].
    unfold df_labels, scale_label. simpl. rewrite map_map.
    apply map_ext. intros c. by destruct (decide _).
Qed.


(** X14.  [test_AR] raises [KeyError] when the RMSE frame that [rmse_AR]
    returns has a column for which no baseline scale is stored. *)
Theorem test_AR_missing_std self test test' rm grads c :
  df_getitem test (columns self) = Ok test' →
  rmse_AR (m_V self) (m_S self) (m_S_inv self) (m_D_blocks self)
          (m_D_matrix self) (past_lag self) (future_lag self)
          (_residual test') (available_data_lags_columns self)
          (ignore_prediction_columns self) (quadratic_regularization self)
  = Ok (rm, grads) →
  c ∈ df_labels rm → baseline_std self !! c = None →
  test_AR self test = Raise KeyError.
Proof.
  intros Hget Hrmse Hc Hnone. unfold test_AR.
  rewrite Hget. simpl. rewrite Hrmse. simpl.
  rewrite scale_by_std_KeyError; [done|]. by exists c.
Qed.

Lemma df_getitem_index {cell'} (df df' : DataFrame cell') labels :
  df_getitem df labels = Ok df' → df_index df' = df_index df.
Proof.
  unfold df_getitem. destruct (rmap _ _); simpl; [|discriminate].
  by intros [= <-].
Qed.

Lemma df_getitem_total {cell'} (df : DataFrame cell') labels :
  (∀ c, c ∈ labels → c ∈ df_labels df) →
  ∃ df', df_getitem df labels = Ok df'.
Proof.
  intros Hsub. unfold df_getitem.
  destruct (rmap_total (df_select_one df) labels) as [cs ->];
    [|by eexists].
  intros c Hc. unfold df_select_one.
  destruct (filter _ _) as [|c0 cs0] eqn:Hf; [|by eexists].
  exfalso. apply Hsub in Hc.
  apply list_elem_of_fmap in Hc as (col & -> & Hcol).
  by apply (filter_nil_not_elem_of _ _ col Hf).
Qed.

Lemma df_reindex_shape (df df' : DataFrame cell) new_index :
  df_reindex df new_index = Ok df' →
  df_index df' = new_index ∧ df_labels df' = df_labels df.
Proof.
  unfold df_reindex. destruct (decide _); [|discriminate].
  intros [= <-]. split; [done|]. unfold df_labels. simpl.
  rewrite map_map. by apply map_ext.
Qed.

(** X15.  A frame that lacks a column of the model is refused with
    [KeyError]: by [test_AR] at once, and by [predict] and [predict_many]
    as soon as the input check has let it pass. *)
Theorem missing_model_column solver make_prediction_mask self data c :
  c ∈ columns self → c ∉ df_labels data →
  test_AR self data = Raise KeyError
  ∧ (check_multidimensional_time_series data (columns self) = Ok tt →
     predict_many make_prediction_mask self data = Raise KeyError
     ∧ ∀ prediction_time return_sigmas,
         predict solver self data prediction_time return_sigmas
         = Raise KeyError).
Proof.
  intros Hc Hnin.
  assert (df_getitem data (columns self) = Raise KeyError) as Hget
    by (apply df_getitem_KeyError; by exists c).
  split; [unfold test_AR; by rewrite Hget|].
  intros Hcheck. split.
  - unfold predict_many, predict_many_input. by rewrite Hcheck, Hget.
  - intros pt flag. unfold predict, predict_window.
    by rewrite Hcheck, Hget.
Qed.

(** X16.  Without an explicit prediction time, [predict] on a frame with
    no rows raises [IndexError]: line 423 reads the last time stamp. *)
Theorem predict_empty_frame solver self data return_sigmas :
  check_multidimensional_time_series data (columns self) = Ok tt →
  (∀ c, c ∈ columns self → c ∈ df_labels data) →
  df_index data = [] →
  predict solver self data None return_sigmas = Raise IndexError.
Proof.
  intros Hcheck Hsub Hempty. unfold predict, predict_window.
  rewrite Hcheck. simpl.
  destruct (df_getitem_total data (columns self) Hsub) as [data' Hget].
  rewrite Hget. simpl.
  by rewrite (df_getitem_index _ _ _ Hget), Hempty.
Qed.

Lemma predict_window_shape self data prediction_time residual_slice :
  NoDup (df_labels data) →
  predict_window self data prediction_time = Ok residual_slice →
  df_labels residual_slice = columns self
  ∧ match prediction_time with
    | Some t =>
        df_index residual_slice
        = seqZ (t - Z.of_nat (past_lag self)) (Z.of_nat (lag self))
    | None =>
        ∃ t, last (df_index data) = Some t
          ∧ df_index residual_slice
            = seqZ (t + 1 - Z.of_nat (past_lag self)) (Z.of_nat (lag self))
    end.
Proof.
  intros Hnd H. unfold predict_window in H.
  apply bind_Ok in H as ([] & _ & H).
  apply bind_Ok in H as (data' & Hget & H).
  apply bind_Ok in H as (t & Ht & H).
  apply bind_Ok in H as (slice & Hslice & H). injection H as <-.
  pose proof (df_getitem_index _ _ _ Hget) as Hidx.
  apply df_getitem_NoDup in Hget as (_ & Hlab & _); [|done].
  apply df_reindex_shape in Hslice as [Hi Hl].
  destruct (df_apply_shape _column_residual slice) as [Hai Hal].
  unfold _residual. rewrite Hai, Hal, Hi, Hl, Hlab. split; [done|].
  destruct prediction_time as [t0|].
  - by injection Ht as ->.
  - rewrite Hidx in Ht. destruct (last (df_index data)) as [t'|];
      [|discriminate]. injection Ht as <-. by exists t'.
Qed.

(** X17.  When the labels of the frame passed in are distinct, the frame
    that [predict] returns has the model's columns, in the model's order,
    and is indexed by the [lag] time stamps from [past_lag] steps before
    the prediction time (by default one step after the last time stamp of
    the frame) onwards; the frame of deviations, when requested, has the
    same columns and index. *)
Theorem predict_shape solver self data prediction_time return_sigmas
    out sigma :
  NoDup (df_labels data) →
  predict solver self data prediction_time return_sigmas = Ok (out, sigma) →
  df_labels out = columns self
  ∧ match prediction_time with
    | Some t =>
        df_index out
        = seqZ (t - Z.of_nat (past_lag self)) (Z.of_nat (lag self))
    | None =>
        ∃ t, last (df_index data) = Some t
          ∧ df_index out
            = seqZ (t + 1 - Z.of_nat (past_lag self)) (Z.of_nat (lag self))
    end
  ∧ (return_sigmas = false → sigma = None)
  ∧ ∀ sg, sigma = Some sg →
      df_labels sg = columns self ∧ df_index sg = df_index out.
Proof.
  intros Hnd H. unfold predict in H.
  apply bind_Ok in H as (rs & Hwin & H).
  apply bind_Ok in H as ([pr sg0] & Hfill & H). injection H as <- <-.
  apply predict_window_shape in Hwin as [Hlab Hidx]; [|done].
  unfold predict_fill in Hfill.
  apply bind_Ok in Hfill as ([predicted Sg] & _ & Hfill).
  apply bind_Ok in Hfill as (sg1 & Hsg & Hfill).
  apply bind_Ok in Hfill as (v' & _ & Hfill). injection Hfill as <- <-.
  destruct (invert_residual_shape self
              (mkFrame (df_index rs)
                 (reshape_F (length (df_index rs)) (df_labels rs) v')))
    as [Hi Hl].
  rewrite Hi, Hl. unfold df_labels at 1. simpl.
  rewrite reshape_F_labels. split; [done|]. split; [done|]. split.
  - intros ->. by injection Hsg as <-.
  - intros sg ->. destruct return_sigmas; [|discriminate].
    destruct (predict_sigma self rs _ Sg) as [sg'|] eqn:Hps;
      [|discriminate].
    injection Hsg as <-. unfold predict_sigma in Hps.
    apply bind_Ok in Hps as (sigval & _ & Hps).
    apply scale_by_std_shape in Hps as [-> ->].
    unfold df_labels at 1. simpl. by rewrite reshape_F_labels.
Qed.

Lemma imap_labels {A} (g : nat -> string -> A) (l : list string) :
  map fst (imap (fun vi c => (c, g vi c)) l) = l.
Proof.
  revert g. induction l as [|x l IH]; intros g; [done|].
  rewrite imap_cons. simpl. f_equal. exact (IH (fun vi => g (S vi))).
Qed.

Lemma res_at_lag_shape self index m fut_lag res :
  res_at_lag self index m fut_lag = Ok res →
  df_labels res = columns self ∧ df_index res = index.
Proof.
  unfold res_at_lag.
  destruct (columns self) as [|c0 cols] eqn:Hcols; [discriminate|].
  intros [= <-]. split; [|done]. unfold df_labels. cbn [df_cols map fst].
  f_equal.
  exact (imap_labels
           (fun vi c =>
              map (fun r : list cell =>
                     mjoin (r !! (S vi * lag self + past_lag self + fut_lag)))
                  (rows m)) cols).
Qed.

(** X18.  [predict_many] returns one frame per forecast lag, keyed
    [1], ..., [future_lag] in this order; each has the model's columns,
    in the model's order, and the index [data.index[past_lag : len(data)
    - future_lag + 1]]. *)
Theorem predict_many_shape make_prediction_mask self data outs :
  predict_many make_prediction_mask self data = Ok outs →
  map fst outs = seq 1 (future_lag self)
  ∧ ∀ fut_lag out, (fut_lag, out) ∈ outs →
      df_labels out = columns self
      ∧ df_index out
        = py_slice (df_index data) (past_lag self)
            (Z.of_nat (length (df_index data))
             - Z.of_nat (future_lag self) + 1).
Proof.
  intros H. unfold predict_many in H.
  apply bind_Ok in H as ([[[[m pm] um] rv] data'] & Hin & H).
  apply bind_Ok in H as ([[m' g] total] & _ & H).
  apply bind_Ok in H as ([] & _ & H).
  assert (df_index data' = df_index data) as Hidx.
  { unfold predict_many_input in Hin.
    apply bind_Ok in Hin as ([] & _ & Hin).
    apply bind_Ok in Hin as (d & Hget & Hin).
    apply bind_Ok in Hin as (rf & _ & Hin).
    apply bind_Ok in Hin as ([pm' um'] & _ & Hin).
    apply bind_Ok in Hin as (rf' & _ & Hin). injection Hin as _ _ _ _ <-.
    by eapply df_getitem_index. }
  rewrite Hidx in H. split.
  - apply rmap_Ok_Forall2 in H. rewrite <- seq_shift.
    induction H as [|k [k' out] ks outs Hk _ IH]; [done|].
    simpl. f_equal; [|done]. apply bind_Ok in Hk as (res & _ & Hk).
    injection Hk as <- _. lia.
  - intros k out Hout.
    destruct (rmap_Ok_elem _ _ _ _ H Hout) as (k0 & _ & Hk).
    apply bind_Ok in Hk as (res & Hres & Hk). injection Hk as _ <-.
    destruct (invert_residual_shape self res) as [-> ->].
    by apply res_at_lag_shape in Hres as [-> ->].
Qed.

(** *** The baseline frame, the anomaly score, the index of the
    flattened window, and the split into training and test rows *)

(** [TSAR.baseline] (lines 506-508): the zero residual, converted back. *)
Definition baseline (self : TSAR num) (prediction_window : list Z)
  : DataFrame cell :=
  _invert_residual self
    (mkFrame prediction_window
       (map (fun c => (c, replicate (length prediction_window) (Some zero)))
            (columns self))).

(** [AR.anomaly_score] and its result. *)
Variable scores : Type.
Variable anomaly_score_AR :
  matrix num -> matrix num -> matrix num -> list (matrix num) -> matrix num ->
  nat -> nat -> DataFrame cell -> result scores.

(** [TSAR.anomaly_score] (lines 338-344) *)
Definition anomaly_score (self : TSAR num) (test : DataFrame cell)
  : result scores :=
  test ← df_getitem test (columns self);
  anomaly_score_AR (m_V self) (m_S self) (m_S_inv self) (m_D_blocks self)
    (m_D_matrix self) (past_lag self) (future_lag self) (_residual test).

(** [TSAR.large_matrix_multiindex] (lines 194-198): [np.repeat(columns,
    lag)] paired with [lag] offsets [-past_lag + 1, ..., future_lag],
    repeated once per column. *)
Definition large_matrix_multiindex (self : TSAR num) : list (string * Z) :=
  zip (flat_map (fun c => replicate (lag self) c) (columns self))
      (concat (replicate (length (columns self))
                 (seqZ (- Z.of_nat (past_lag self) + 1)
                       (Z.of_nat (lag self))))).

(** [l[:k]] keeps and [l[k:]] drops this many elements of a list of
    length [len]; a negative [k] counts from the end. *)
Definition py_cut (len : nat) (k : Z) : nat :=
  Z.to_nat (if (k <? 0)%Z then Z.max 0 (Z.of_nat len + k)
            else Z.min k (Z.of_nat len)).

(** [TSAR.train] and [TSAR.test] (lines 211-218): [data.iloc[:cut]] and
    [data.iloc[cut:]], where [cut] is
    [int(len(data) * train_test_split)]. *)
Definition train (data : DataFrame cell) (cut : Z) : DataFrame cell :=
  let k := py_cut (length (df_index data)) cut in
  mkFrame (take k (df_index data))
    (map (fun c => (fst c, take k (snd c))) (df_cols data)).

Definition test (data : DataFrame cell) (cut : Z) : DataFrame cell :=
  let k := py_cut (length (df_index data)) cut in
  mkFrame (drop k (df_index data))
    (map (fun c => (fst c, drop k (snd c))) (df_cols data)).

(** X19.  Whatever the cut-off index, the training and the test rows
    partition the data: the two indexes, and the two parts of every
    column, concatenate to the original, with the labels unchanged; a
    cut-off between 0 and the number of rows gives that many training
    rows. *)
Theorem train_test_partition data cut :
  df_index (train data cut) ++ df_index (test data cut) = df_index data
  ∧ zip_with (fun a b => (fst a, snd a ++ snd b))
      (df_cols (train data cut)) (df_cols (test data cut))
    = df_cols data
  ∧ df_labels (train data cut) = df_labels data
  ∧ df_labels (test data cut) = df_labels data
  ∧ ((0 <= cut <= Z.of_nat (length (df_index data)))%Z →
     length (df_index (train data cut)) = Z.to_nat cut).
Proof.
  unfold train, test, df_labels. cbn [df_index df_cols].
  set (k := py_cut (length (df_index data)) cut).
  split; [apply take_drop|]. split.
  - induction (df_cols data) as [|[c cells] cols IH]; [done|].
    cbn [map zip_with fst snd]. by rewrite take_drop, IH.
  - rewrite !map_map. split; [by apply map_ext|]. split; [by apply map_ext|].
    intros Hcut. rewrite length_take. subst k. unfold py_cut.
    destruct (Z.ltb_spec cut 0); lia.
Qed.

Lemma df_getitem_agree (t1 t2 : DataFrame cell) labels :
  NoDup (df_labels t1) → NoDup (df_labels t2) →
  df_index t1 = df_index t2 →
  (∀ col, fst col ∈ labels → col ∈ df_cols t1 ↔ col ∈ df_cols t2) →
  df_getitem t1 labels = df_getitem t2 labels.
Proof.
  intros Hnd1 Hnd2 Hidx Hagree. unfold df_getitem. rewrite Hidx.
  assert (rmap (df_select_one t1) labels = rmap (df_select_one t2) labels)
    as ->; [|done].
  induction labels as [|lbl labels IH]; [done|]. simpl.
  rewrite IH by (intros col Hcol; apply Hagree; by right).
  assert (df_select_one t1 lbl = df_select_one t2 lbl) as ->; [|done].
  destruct (decide (lbl ∈ df_labels t1)) as [Hin|Hnin].
  - apply list_elem_of_fmap in Hin as ([c cells] & -> & Hc). simpl.
    rewrite (df_select_one_NoDup _ _ _ Hnd1 Hc).
    apply Hagree in Hc; [|by left].
    by rewrite (df_select_one_NoDup _ _ _ Hnd2 Hc).
  - rewrite (df_select_one_missing t1) by done.
    rewrite (df_select_one_missing t2); [done|].
    intros ([c cells] & -> & Hc)%list_elem_of_fmap. apply Hnin.
    apply Hagree in Hc; [|by left].
    by apply (list_elem_of_fmap_2 fst _ (c, cells)).
Qed.

(** X20.  [test_AR] and [anomaly_score] read of a frame only its index
    and the columns of the model: two frames with distinct labels, the
    same index and the same model columns (same cells), whatever their
    other columns and the order of their columns, give the same outcome. *)
Theorem evaluation_reads_model_columns_only self t1 t2 :
  NoDup (df_labels t1) → NoDup (df_labels t2) →
  df_index t1 = df_index t2 →
  (∀ col, fst col ∈ columns self → col ∈ df_cols t1 ↔ col ∈ df_cols t2) →
  test_AR self t1 = test_AR self t2
  ∧ anomaly_score self t1 = anomaly_score self t2.
Proof.
  intros Hnd1 Hnd2 Hidx Hagree. unfold test_AR, anomaly_score.
  by rewrite (df_getitem_agree t1 t2 (columns self)).
Qed.

Lemma lookup_zip_app {A B} (l1 l2 : list A) (k1 k2 : list B) i :
  length l1 = length k1 →
  zip (l1 ++ l2) (k1 ++ k2) !! i
  = if decide (i < length l1) then zip l1 k1 !! i
    else zip l2 k2 !! (i - length l1).
Proof.
  intros Hlen. rewrite zip_with_app by done.
  destruct (decide (i < length l1)) as [Hi|Hi].
  - apply lookup_app_l. rewrite length_zip_with. lia.
  - rewrite lookup_app_r by (rewrite length_zip_with; lia).
    f_equal. rewrite length_zip_with. lia.
Qed.

Lemma multiindex_lookup (cols : list string) (n k : nat) (start : Z)
    vi c j :
  cols !! vi = Some c → j < k →
  zip (flat_map (fun c => replicate k c) cols)
      (concat (replicate (n + length cols) (seqZ start (Z.of_nat k))))
    !! (vi * k + j)
  = Some (c, (start + Z.of_nat j)%Z).
Proof.
  revert vi n. induction cols as [|c0 cols IH]; intros vi n Hvi Hj;
    [by rewrite lookup_nil in Hvi|].
  cbn [flat_map length].
  replace (n + S (length cols)) with (S (n + length cols)) by lia.
  cbn [replicate concat].
  rewrite lookup_zip_app
    by (rewrite length_replicate, length_seqZ; lia).
  rewrite length_replicate. destruct vi as [|vi].
  - injection Hvi as ->. rewrite decide_True by lia. simpl.
    apply lookup_zip_with_Some. exists c, (start + Z.of_nat j)%Z.
    split; [done|]. split.
    + by apply lookup_replicate_2.
    + apply lookup_seqZ. lia.
  - rewrite decide_False by lia.
    replace (S vi * k + j - k) with (vi * k + j) by lia.
    by apply IH.
Qed.

(** X21.  The index of the flattened window has [lag] entries per
    column: position [vi * lag + j] carries the label of column [vi] and
    the offset [j - past_lag + 1].  So the offset [fut_lag + 1] that
    [predict_many] selects with [res.loc[:, fut_lag + 1]] stands, for
    each column, at slot [past_lag + fut_lag] of the column's segment. *)
Theorem large_matrix_multiindex_positions self vi c :
  columns self !! vi = Some c →
  length (large_matrix_multiindex self) = length (columns self) * lag self
  ∧ (∀ j, j < lag self →
       large_matrix_multiindex self !! (vi * lag self + j)
       = Some (c, (Z.of_nat j - Z.of_nat (past_lag self) + 1)%Z))
  ∧ (∀ fut_lag, fut_lag < future_lag self →
       large_matrix_multiindex self
         !! (vi * lag self + past_lag self + fut_lag)
       = Some (c, (Z.of_nat fut_lag + 1)%Z)).
Proof.
  intros Hvi. unfold large_matrix_multiindex.
  assert (∀ j, j < lag self →
            zip (flat_map (fun c => replicate (lag self) c) (columns self))
                (concat (replicate (length (columns self))
                           (seqZ (- Z.of_nat (past_lag self) + 1)
                                 (Z.of_nat (lag self)))))
              !! (vi * lag self + j)
            = Some (c, (Z.of_nat j - Z.of_nat (past_lag self) + 1)%Z))
    as Hpos.
  { intros j Hj.
    rewrite (multiindex_lookup (columns self) 0 (lag self) _ vi c j Hvi Hj).
    do 2 f_equal. lia. }
  split; [|split; [exact Hpos|]].
  - rewrite length_zip_with.
    assert (∀ (cols : list string) k,
              length (flat_map (fun c => replicate k c) cols)
              = length cols * k) as Hrep.
    { intros cols k. induction cols as [|c1 cols IH]; [done|].
      cbn [flat_map length]. rewrite length_app, length_replicate, IH. lia. }
    assert (∀ (m : nat) (l : list Z),
              length (concat (replicate m l)) = m * length l) as Hcat.
    { intros m l. induction m as [|m IH]; [done|].
      cbn [replicate concat]. rewrite length_app, IH. lia. }
    rewrite Hrep, Hcat, length_seqZ. lia.
  - intros k Hk. rewrite <- Nat.add_assoc.
    rewrite Hpos by (unfold lag; lia). do 2 f_equal. lia.
Qed.

Section OrderFacts.

Hypothesis leb_total : ∀ x y, leb x y = true ∨ leb y x = true.
Hypothesis leb_trans :
  ∀ x y z, leb x y = true → leb y z = true → leb x z = true.

(** X22.  For a frame with distinct labels, [_fit_ranges] stores for
    each column that holds a number its least and its greatest number:
    both occur in the column and bound every number of it.  For a column
    without any number it stores NaN twice. *)
Theorem fit_ranges_attained data c obs :
  NoDup (df_labels data) → (c, obs) ∈ df_cols data →
  match (_fit_ranges data).1 !! c, (_fit_ranges data).2 !! c with
  | Some (Some lo), Some (Some hi) =>
      Some lo ∈ obs ∧ Some hi ∈ obs
      ∧ ∀ y, Some y ∈ obs → leb lo y = true ∧ leb y hi = true
  | Some None, Some None => ∀ y, Some y ∉ obs
  | _, _ => False
  end.
Proof.
  intros Hnd Hin.
  destruct (fit_ranges_lookup data c obs Hnd Hin) as [-> ->].
  pose proof (col_min_spec leb_total leb_trans obs) as Hlo.
  pose proof (col_max_spec leb_total leb_trans obs) as Hhi.
  destruct (col_min obs) as [lo|], (col_max obs) as [hi|].
  - destruct Hlo as [? Hlo], Hhi as [? Hhi]. by auto.
  - destruct Hlo as [Hlo _]. by apply Hhi in Hlo.
  - destruct Hhi as [Hhi _]. by apply Hlo in Hhi.
  - done.
Qed.

(** X23.  [baseline] returns a frame over the requested window with the
    model's columns, and its values are clipped to the fitted range like
    every prediction. *)
Theorem baseline_shape_and_range self fit_data prediction_window :
  (_min self, _max self) = _fit_ranges fit_data →
  NoDup (df_labels fit_data) →
  df_index (baseline self prediction_window) = prediction_window
  ∧ df_labels (baseline self prediction_window) = columns self
  ∧ in_fitted_range fit_data (baseline self prediction_window).
Proof.
  intros Hfit Hnd. unfold baseline.
  destruct (invert_residual_shape self
              (mkFrame prediction_window
                 (map (fun c => (c, replicate (length prediction_window)
                                      (Some zero))) (columns self))))
    as [-> ->].
  split; [done|]. split.
  - unfold df_labels. cbn [df_cols]. rewrite map_map. apply map_id.
  - unfold _invert_residual.
    by apply (clip_prediction_in_range leb_total leb_trans).
Qed.

End OrderFacts.

End Pipeline.

(** *** A model over the integers, for instances of the properties *)

Definition demo_fit_data : DataFrame (option Z) :=
  mkFrame [0; 1; 2]%Z
    [("a", [Some 3; None; Some 8]%Z); ("b", [Some 20; Some 25; Some 22]%Z)].

Definition demo_model : TSAR Z :=
  mkTSAR ["a"; "b"] 1 1 {["a" := 0%Z; "b" := 0%Z]} []
    {["a" := 2%Z; "b" := 3%Z]}
    (_fit_ranges Z.leb demo_fit_data).1 (_fit_ranges Z.leb demo_fit_data).2
    0%Z (mkMatrix 0 0 []) (mkMatrix 0 0 []) (mkMatrix 0 0 []) []
    (mkMatrix 0 0 []).

(** The residual of a column is the column minus 10. *)
Definition demo_residual (c : string) (index : list Z)
    (cells : list (option Z)) : list (option Z) :=
  map (fmap (fun x => x - 10)%Z) cells.

Definition demo_invert (c : string) (index : list Z)
    (cells : list (option Z)) : list (option Z) :=
  map (fmap (fun x => x + 10)%Z) cells.

Definition demo_check (data : DataFrame (option Z)) (cols : list string)
  : result unit := Ok tt.

(** A solver that predicts 0 for every requested entry. *)
Definition demo_solver : schur_solver (num := Z) unit :=
  fun _ _ _ _ _ _ known_mask known_matrix prediction_mask _ _ =>
    Ok (replicate (count_true prediction_mask) (Some 0%Z), mkMatrix 0 0 []).

Definition demo_rmse_AR (mV mS mS_inv : matrix Z) (mD_blocks : list (matrix Z))
    (mD_matrix : matrix Z) (past future : nat)
    (residuals : DataFrame (option Z)) (lags : gmap string Z)
    (ignore : list string) (reg : Z)
  : result (DataFrame (option Z) * unit) :=
  Ok (mkFrame [1]%Z [("a", [Some 5%Z]); ("b", [Some 7%Z])], tt).

Definition demo_sliced (residuals : DataFrame (option Z)) (lag : nat)
  : result (matrix (option Z)) :=
  Ok (mkMatrix 2 4 [[Some 1; Some 2; Some 3; Some 4]%Z;
                    [Some 5; Some 6; Some 7; Some 8]%Z]).

Definition demo_mask_maker : mask_maker :=
  fun _ _ _ _ _ => Ok ([false; true; false; true], [false; true; false; true]).

Definition demo_guess_matrix (m : matrix (option Z))
    (mV mS mS_inv : matrix Z) (mD_blocks : list (matrix Z))
    (mD_matrix : matrix Z) (reg : Z) (prediction_mask : list bool)
    (real_values : matrix (option Z))
  : result (matrix (option Z) * unit * nat) :=
  Ok (real_values, tt, 4).

Definition demo_frame : DataFrame (option Z) :=
  mkFrame [0; 1; 2]%Z
    [("b", [Some 21; Some 22; Some 23]%Z); ("a", [Some 4; Some 5; None]%Z)].

Lemma Z_leb_total (x y : Z) : (x <=? y)%Z = true ∨ (y <=? x)%Z = true.
Proof. destruct (Z.leb_spec x y); [by left|right]. apply Z.leb_le. lia. Qed.

Lemma Z_leb_trans (x y z : Z) :
  (x <=? y)%Z = true → (y <=? z)%Z = true → (x <=? z)%Z = true.
Proof. rewrite !Z.leb_le. lia. Qed.

Ltac by_evaluation :=
  match goal with
  | |- ?P => apply (@bool_decide_unpack P _); vm_compute; exact I
  end.


(** The demo functions applied: evaluation, prediction at one time,
    prediction over a frame. *)
Definition demo_test_AR (self : TSAR Z) (frame : DataFrame (option Z)) :=
  test_AR Z.mul demo_residual unit demo_rmse_AR self frame.

Definition demo_anomaly_score (self : TSAR Z) (frame : DataFrame (option Z))
  : result nat :=
  anomaly_score demo_residual nat
    (fun _ _ _ _ _ _ _ residuals => Ok (length (df_index residuals)))
    self frame.

Definition demo_predict (self : TSAR Z) (data : DataFrame (option Z))
    (prediction_time : option Z) (return_sigmas : bool) :=
  predict 0%Z Z.mul Z.leb demo_residual demo_invert demo_check unit
    (fun _ => tt) demo_solver self data prediction_time return_sigmas.

Definition demo_predict_many (self : TSAR Z) (data : DataFrame (option Z)) :=
  predict_many Z.leb demo_residual demo_invert unit demo_check demo_sliced
    demo_guess_matrix demo_mask_maker self data.

(** A model like [demo_model] whose baseline of column [b] has no scale. *)
Definition demo_model_without_std : TSAR Z :=
  mkTSAR ["a"; "b"] 1 1 {["a" := 0%Z; "b" := 0%Z]} []
    {["a" := 2%Z]}
    (_fit_ranges Z.leb demo_fit_data).1 (_fit_ranges Z.leb demo_fit_data).2
    0%Z (mkMatrix 0 0 []) (mkMatrix 0 0 []) (mkMatrix 0 0 []) []
    (mkMatrix 0 0 []).

Definition demo_frame_ab : DataFrame (option Z) :=
  mkFrame [0; 1; 2]%Z
    [("a", [Some 4; Some 5; None]%Z); ("b", [Some 21; Some 22; Some 23]%Z)].

Example demo_test_AR_rescaled :
  demo_test_AR demo_model demo_frame
  = Ok (mkFrame [1]%Z [("a", [Some 10%Z]); ("b", [Some 21%Z])], tt).
Proof. vm_compute. reflexivity. Qed.

Lemma test_AR_missing_std_witness :
  df_getitem demo_frame (columns demo_model_without_std) = Ok demo_frame_ab
  ∧ ("b" ∈ df_labels (mkFrame [1]%Z [("a", [Some 5%Z]); ("b", [Some 7%Z])]))
  ∧ baseline_std demo_model_without_std !! "b" = None
  ∧ demo_test_AR demo_model_without_std demo_frame = Raise KeyError.
Proof.
  assert (df_getitem demo_frame (columns demo_model_without_std)
          = Ok demo_frame_ab) as H1 by (vm_compute; reflexivity).
  assert ("b" ∈ df_labels
            (mkFrame [1]%Z [("a", [Some 5%Z]); ("b", [Some 7%Z])])) as H3
    by by_evaluation.
  assert (baseline_std demo_model_without_std !! "b" = None) as H4
    by (vm_compute; reflexivity).
  split; [exact H1|]. split; [exact H3|]. split; [exact H4|].
  exact (test_AR_missing_std Z.mul demo_residual unit demo_rmse_AR
           demo_model_without_std demo_frame demo_frame_ab _ tt "b"
           H1 eq_refl H3 H4).
Defined.

Definition demo_frame_a : DataFrame (option Z) :=
  mkFrame [0; 1; 2]%Z [("a", [Some 4; Some 5; None]%Z)].

Lemma missing_model_column_witness :
  ("b" ∈ columns demo_model) ∧ ("b" ∉ df_labels demo_frame_a)
  ∧ demo_test_AR demo_model demo_frame_a = Raise KeyError
  ∧ (demo_check demo_frame_a (columns demo_model) = Ok tt →
     demo_predict_many demo_model demo_frame_a = Raise KeyError
     ∧ ∀ prediction_time return_sigmas,
         demo_predict demo_model demo_frame_a prediction_time return_sigmas
         = Raise KeyError).
Proof.
  assert ("b" ∈ columns demo_model) as H1 by by_evaluation.
  assert ("b" ∉ df_labels demo_frame_a) as H2 by by_evaluation.
  split; [exact H1|]. split; [exact H2|].
  exact (missing_model_column 0%Z Z.mul Z.leb demo_residual demo_invert unit
           demo_rmse_AR demo_check unit (fun _ => tt) demo_sliced
           demo_guess_matrix demo_solver demo_mask_maker demo_model
           demo_frame_a "b" H1 H2).
Defined.

Definition demo_frame_no_rows : DataFrame (option Z) :=
  mkFrame [] [("a", []); ("b", [])].

Lemma predict_empty_frame_witness :
  (∀ c, c ∈ columns demo_model → c ∈ df_labels demo_frame_no_rows)
  ∧ df_index demo_frame_no_rows = []
  ∧ demo_predict demo_model demo_frame_no_rows None false = Raise IndexError.
Proof.
  assert (∀ c, c ∈ columns demo_model → c ∈ df_labels demo_frame_no_rows)
    as H by (intros c Hc; exact Hc).
  split; [exact H|]. split; [reflexivity|].
  exact (predict_empty_frame 0%Z Z.mul Z.leb demo_residual demo_invert
           demo_check unit (fun _ => tt) demo_solver demo_model
           demo_frame_no_rows false eq_refl H eq_refl).
Defined.

(** With [past_lag = future_lag = 1] and no explicit time, the window of
    [demo_frame] is the last time stamp and the one after it. *)
Definition demo_prediction : DataFrame (option Z) :=
  mkFrame [2; 3]%Z [("a", [Some 8%Z; Some 8%Z]); ("b", [Some 23%Z; Some 20%Z])].

Example demo_predict_value :
  demo_predict demo_model demo_frame None false = Ok (demo_prediction, None).
Proof. vm_compute. reflexivity. Qed.

Lemma predict_shape_witness :
  NoDup (df_labels demo_frame)
  ∧ demo_predict demo_model demo_frame None false = Ok (demo_prediction, None)
  ∧ df_labels demo_prediction = columns demo_model
  ∧ (∃ t, last (df_index demo_frame) = Some t
       ∧ df_index demo_prediction
         = seqZ (t + 1 - Z.of_nat (past_lag demo_model))
             (Z.of_nat (lag demo_model)))
  ∧ (false = false → @None (DataFrame (option Z)) = None)
  ∧ ∀ sg : DataFrame (option Z), None = Some sg →
      df_labels sg = columns demo_model
      ∧ df_index sg = df_index demo_prediction.
Proof.
  assert (NoDup (df_labels demo_frame)) as H1 by by_evaluation.
  split; [exact H1|]. split; [exact demo_predict_value|].
  exact (predict_shape 0%Z Z.mul Z.leb demo_residual demo_invert demo_check
           unit (fun _ => tt) demo_solver demo_model demo_frame None false
           demo_prediction None H1 demo_predict_value).
Defined.

Definition demo_predictions : list (nat * DataFrame (option Z)) :=
  Eval vm_compute in
    match demo_predict_many demo_model demo_frame with
    | Ok outs => outs
    | Raise _ => []
    end.

Example demo_predict_many_value :
  demo_predict_many demo_model demo_frame = Ok demo_predictions.
Proof. vm_compute. reflexivity. Qed.

Lemma predict_many_shape_witness :
  demo_predict_many demo_model demo_frame = Ok demo_predictions
  ∧ map fst demo_predictions = seq 1 (future_lag demo_model)
  ∧ ∀ fut_lag out, (fut_lag, out) ∈ demo_predictions →
      df_labels out = columns demo_model
      ∧ df_index out
        = py_slice (df_index demo_frame) (past_lag demo_model)
            (Z.of_nat (length (df_index demo_frame))
             - Z.of_nat (future_lag demo_model) + 1).
Proof.
  split; [exact demo_predict_many_value|].
  exact (predict_many_shape Z.leb demo_residual demo_invert unit demo_check
           demo_sliced demo_guess_matrix demo_mask_maker demo_model
           demo_frame demo_predictions demo_predict_many_value).
Defined.

(** [demo_frame] with its model columns in the other order and one more
    column. *)
Definition demo_frame_wide : DataFrame (option Z) :=
  mkFrame [0; 1; 2]%Z
    [("a", [Some 4; Some 5; None]%Z); ("extra", [None; None; Some 1%Z]);
     ("b", [Some 21; Some 22; Some 23]%Z)].

Lemma evaluation_reads_model_columns_only_witness :
  NoDup (df_labels demo_frame) ∧ NoDup (df_labels demo_frame_wide)
  ∧ df_index demo_frame = df_index demo_frame_wide
  ∧ (∀ col, fst col ∈ columns demo_model →
       col ∈ df_cols demo_frame ↔ col ∈ df_cols demo_frame_wide)
  ∧ demo_test_AR demo_model demo_frame
    = demo_test_AR demo_model demo_frame_wide
  ∧ demo_anomaly_score demo_model demo_frame
    = demo_anomaly_score demo_model demo_frame_wide.
Proof.
  assert (NoDup (df_labels demo_frame)) as H1 by by_evaluation.
  assert (NoDup (df_labels demo_frame_wide)) as H2 by by_evaluation.
  assert (∀ col, fst col ∈ columns demo_model →
            col ∈ df_cols demo_frame ↔ col ∈ df_cols demo_frame_wide) as H4.
  { intros [c cells] Hc. cbn [fst] in Hc.
    unfold demo_frame, demo_frame_wide, demo_model in *. cbn [df_cols columns] in *.
    rewrite !elem_of_cons, elem_of_nil in Hc.
    rewrite !elem_of_cons, !elem_of_nil.
    destruct Hc as [->|[->|[]]]; split; intros H; naive_solver. }
  split; [exact H1|]. split; [exact H2|]. split; [reflexivity|].
  split; [exact H4|].
  exact (evaluation_reads_model_columns_only Z.mul demo_residual unit
           demo_rmse_AR nat
           (fun _ _ _ _ _ _ _ residuals => Ok (length (df_index residuals)))
           demo_model demo_frame demo_frame_wide H1 H2 eq_refl H4).
Defined.

Lemma large_matrix_multiindex_positions_witness :
  columns demo_model !! 1 = Some "b"
  ∧ length (large_matrix_multiindex demo_model)
    = length (columns demo_model) * lag demo_model
  ∧ (∀ j, j < lag demo_model →
       large_matrix_multiindex demo_model !! (1 * lag demo_model + j)
       = Some ("b", (Z.of_nat j - Z.of_nat (past_lag demo_model) + 1)%Z))
  ∧ (∀ fut_lag, fut_lag < future_lag demo_model →
       large_matrix_multiindex demo_model
         !! (1 * lag demo_model + past_lag demo_model + fut_lag)
       = Some ("b", (Z.of_nat fut_lag + 1)%Z)).
Proof.
  split; [reflexivity|].
  exact (large_matrix_multiindex_positions demo_model 1 "b" eq_refl).
Defined.

Lemma fit_ranges_attained_witness :
  NoDup (df_labels demo_fit_data)
  ∧ (("a", [Some 3; None; Some 8]%Z) ∈ df_cols demo_fit_data)
  ∧ match (_fit_ranges Z.leb demo_fit_data).1 !! "a",
          (_fit_ranges Z.leb demo_fit_data).2 !! "a" with
    | Some (Some lo), Some (Some hi) =>
        Some lo ∈ [Some 3; None; Some 8]%Z ∧ Some hi ∈ [Some 3; None; Some 8]%Z
        ∧ ∀ y, Some y ∈ [Some 3; None; Some 8]%Z →
            Z.leb lo y = true ∧ Z.leb y hi = true
    | Some None, Some None => ∀ y, Some y ∉ [Some 3; None; Some 8]%Z
    | _, _ => False
    end.
Proof.
  assert (NoDup (df_labels demo_fit_data)) as H1 by by_evaluation.
  assert (("a", [Some 3; None; Some 8]%Z) ∈ df_cols demo_fit_data) as H2
    by by_evaluation.
  split; [exact H1|]. split; [exact H2|].
  exact (fit_ranges_attained Z.leb Z_leb_total Z_leb_trans demo_fit_data "a"
           [Some 3; None; Some 8]%Z H1 H2).
Defined.

Lemma baseline_shape_and_range_witness :
  (_min demo_model, _max demo_model) = _fit_ranges Z.leb demo_fit_data
  ∧ NoDup (df_labels demo_fit_data)
  ∧ df_index (baseline 0%Z Z.leb demo_invert demo_model [7; 8]%Z) = [7; 8]%Z
  ∧ df_labels (baseline 0%Z Z.leb demo_invert demo_model [7; 8]%Z)
    = columns demo_model
  ∧ in_fitted_range Z.leb demo_fit_data
      (baseline 0%Z Z.leb demo_invert demo_model [7; 8]%Z).
Proof.
  assert ((_min demo_model, _max demo_model)
          = _fit_ranges Z.leb demo_fit_data) as H1 by (vm_compute; reflexivity).
  assert (NoDup (df_labels demo_fit_data)) as H2 by by_evaluation.
  split; [exact H1|]. split; [exact H2|].
  exact (baseline_shape_and_range 0%Z Z.leb demo_invert Z_leb_total
           Z_leb_trans demo_model demo_fit_data [7; 8]%Z H1 H2).
Defined.

End Predict.
